(** * First-RAG-App: the retrieval core, embedded and verified

    The development follows the source modules of the application:

    - [documents.js]   ([DocumentProcessor]: [cleanText], [chunkText],
                        [processDocument]);
    - [vectorStore.js] ([SimpleVectorStore]: [addDocument],
                        [cosineSimilarity], [search], ...);
    - [generation.js]  ([TextGenerator]: [generateAnswer],
                        [createFallbackAnswer], ...);
    - [retrieval.js]   ([RAGSystem]: [addDocument], [askQuestion],
                        [createContext]);
    - [embedding.js]   ([EmbeddingService]: [generateEmbedding],
                        [generateEmbeddings]).

    JavaScript values are modelled as the code uses them: strings as
    [string] (code units below 256), array indices and integer settings as
    [Z], arrays as [list], plain objects as association lists, thrown
    exceptions by an explicit completion type, and numbers as the
    primitive binary64 floats, the arithmetic the program runs.  The
    operations on numbers are gathered in an interface [Number], so that
    what does not depend on the arithmetic is proved without unfolding
    it. *)

From Stdlib Require Import List ZArith Lia Bool String Ascii DecimalString.
From Stdlib Require Import Floats Permutation Sorted.
Import ListNotations.

Set Implicit Arguments.

(* ================================================================= *)
(** * Part I: the JavaScript fragment used by the sources *)
(* ================================================================= *)

Module JS.

(** ** Exceptions *)

(** [new Error(message)]; only [error.message] is ever inspected. *)
Inductive Error : Type := MkError (message : string).

Definition message (e : Error) : string :=
  match e with MkError m => m end.

(** The completion of an expression: a value, or a thrown exception. *)
Inductive completion (A : Type) : Type :=
| Normal (a : A)
| Throw (e : Error).
Arguments Normal {A} a.
Arguments Throw {A} e.

Definition bind {A B} (c : completion A) (k : A -> completion B)
  : completion B :=
  match c with
  | Normal a => k a
  | Throw e => Throw e
  end.

(** [array.map(f)] for a callback that may throw: the callbacks run in
    index order and the first exception aborts the whole map. *)
Fixpoint mapi_from {A B} (f : nat -> A -> completion B) (i : nat)
         (l : list A) : completion (list B) :=
  match l with
  | [] => Normal []
  | x :: t =>
      bind (f i x) (fun y =>
      bind (mapi_from f (S i) t) (fun ys => Normal (y :: ys)))
  end.

Definition mapi {A B} (f : nat -> A -> completion B) (l : list A) :=
  mapi_from f 0 l.

(** [array.forEach(f)] for a callback that returns nothing and may
    throw: the first exception aborts the loop. *)
Fixpoint forEach {A} (f : A -> completion unit) (l : list A)
  : completion unit :=
  match l with
  | [] => Normal tt
  | x :: t => bind (f x) (fun _ => forEach f t)
  end.

(** [array.map((x, index) => ...)] for a total callback. *)
Fixpoint pure_mapi_from {A B} (f : nat -> A -> B) (i : nat) (l : list A)
  : list B :=
  match l with
  | [] => []
  | x :: t => f i x :: pure_mapi_from f (S i) t
  end.

Definition pure_mapi {A B} (f : nat -> A -> B) (l : list A) : list B :=
  pure_mapi_from f 0 l.

(** ** Numbers *)

(** The operations on JavaScript numbers the sources use. *)
Class Number (num : Type) : Type := {
  zero : num;
  add : num -> num -> num;
  sub : num -> num -> num;
  mul : num -> num -> num;
  div : num -> num -> num;
  sqrt : num -> num;              (* Math.sqrt *)
  strict_eq : num -> num -> bool; (* === *)
  lt : num -> num -> bool         (* <   *)
}.

(** [x ** 2] *)
Definition square {num} `{Number num} (x : num) : num := mul x x.

(** [x > y] *)
Definition gt {num} `{Number num} (x y : num) : bool := lt y x.

(** IEEE-754 binary64, the numbers of the running program.  [0 === -0]
    holds and [NaN === NaN] does not, as for [PrimFloat.eqb]. *)
#[export] Instance float_Number : Number float := {
  zero := 0%float;
  add := PrimFloat.add;
  sub := PrimFloat.sub;
  mul := PrimFloat.mul;
  div := PrimFloat.div;
  sqrt := PrimFloat.sqrt;
  strict_eq := PrimFloat.eqb;
  lt := PrimFloat.ltb
}.

(** ** Strings *)

Local Open Scope string_scope.

Definition LF : string := String (ascii_of_nat 10) EmptyString.

(** [s.length] *)
Definition len (s : string) : Z := Z.of_nat (String.length s).

(** White space of [String.prototype.trim] and of the regular
    expression class [\s], among the code units below 256:
    TAB, LF, VT, FF, CR, SPACE and NBSP. *)
Definition isWhiteSpace (c : ascii) : bool :=
  let n := nat_of_ascii c in
  ((9 <=? n) && (n <=? 13) || (n =? 32) || (n =? 160))%nat.

Definition isEmpty (s : string) : bool :=
  match s with EmptyString => true | String _ _ => false end.

Fixpoint trimStart (s : string) : string :=
  match s with
  | EmptyString => EmptyString
  | String c t => if isWhiteSpace c then trimStart t else s
  end.

Fixpoint trimEnd (s : string) : string :=
  match s with
  | EmptyString => EmptyString
  | String c t =>
      let t' := trimEnd t in
      if isWhiteSpace c && isEmpty t' then EmptyString else String c t'
  end.

(** [s.trim()] *)
Definition trim (s : string) : string := trimEnd (trimStart s).

(** The relative-index rule shared by [String.prototype.slice] and
    [Array.prototype.slice]: a negative position counts from the end,
    and the result is clamped to [0 .. n]. *)
Definition relative_index (n pos : Z) : Z :=
  if (pos <? 0)%Z then Z.max (n + pos) 0 else Z.min pos n.

(** [s.slice(from, to)] *)
Definition slice (s : string) (from to : Z) : string :=
  let a := relative_index (len s) from in
  let b := relative_index (len s) to in
  substring (Z.to_nat a) (Z.to_nat (b - a)) s.

(** [s.substring(0, n)] for a non-negative [n] *)
Definition substring0 (s : string) (n : nat) : string := substring 0 n s.

(** [lastIndexOf] scans [s] from the left, remembering in [acc] the last
    index not above [limit] that holds [ch]. *)
Fixpoint lastIndexOf_scan (s : string) (i : Z) (ch : ascii) (limit acc : Z)
  : Z :=
  match s with
  | EmptyString => acc
  | String c t =>
      if (i <=? limit)%Z
      then lastIndexOf_scan t (i + 1)%Z ch limit
             (if Ascii.eqb c ch then i else acc)
      else acc
  end.

(** [s.lastIndexOf(ch, position)] for a one-character search string:
    the position is clamped to [0 .. s.length - 1], and the answer is
    the greatest index not above it that holds [ch], or [-1]. *)
Definition lastIndexOf (s : string) (ch : ascii) (position : Z) : Z :=
  lastIndexOf_scan s 0%Z ch (Z.max position 0) (-1)%Z.

(** [s.startsWith(p)] and [s.includes(p)] *)
Definition startsWith (p s : string) : bool := prefix p s.

Fixpoint includes (s p : string) : bool :=
  startsWith p s ||
  match s with
  | EmptyString => false
  | String _ t => includes t p
  end.

(** [s.toLowerCase()] on the code units below 256 (A-Z, and the
    Latin-1 capitals other than the multiplication sign). *)
Definition lowerChar (c : ascii) : ascii :=
  let n := nat_of_ascii c in
  if ((65 <=? n) && (n <=? 90)
      || (192 <=? n) && (n <=? 222) && negb (n =? 215))%nat
  then ascii_of_nat (n + 32) else c.

Fixpoint toLowerCase (s : string) : string :=
  match s with
  | EmptyString => EmptyString
  | String c t => String (lowerChar c) (toLowerCase t)
  end.

(** [s.split(separator)] for a one-character separator string. *)
Fixpoint split_char (sep : ascii) (s : string) : list string :=
  match s with
  | EmptyString => [EmptyString]
  | String c t =>
      if Ascii.eqb c sep then EmptyString :: split_char sep t
      else match split_char sep t with
           | [] => [String c EmptyString]
           | w :: ws => String c w :: ws
           end
  end.

(** [s.split(/[.!?]+/)]: a maximal run of terminators is one separator
    ([inRun] tells that the previous character was a terminator). *)
Definition isTerminator (c : ascii) : bool :=
  Ascii.eqb c "." || Ascii.eqb c "!" || Ascii.eqb c "?".

Fixpoint split_terminators (inRun : bool) (s : string) : list string :=
  match s with
  | EmptyString => [EmptyString]
  | String c t =>
      if isTerminator c
      then if inRun then split_terminators true t
           else EmptyString :: split_terminators true t
      else match split_terminators false t with
           | [] => [String c EmptyString]
           | w :: ws => String c w :: ws
           end
  end.

(** [array.join(sep)] *)
Fixpoint join (sep : string) (l : list string) : string :=
  match l with
  | [] => EmptyString
  | [x] => x
  | x :: t => x ++ sep ++ join sep t
  end.

(** [s.replace(pattern, '')] for a string pattern: drops the first
    occurrence of [pattern], if there is one. *)
Fixpoint remove_first (pattern s : string) : string :=
  if startsWith pattern s
  then substring (String.length pattern) (String.length s) s
  else match s with
       | EmptyString => EmptyString
       | String c t => String c (remove_first pattern t)
       end.

(** [s.replace(/\s+/g, ' ')]: [inRun] tells that the previous character
    was white space, already replaced. *)
Fixpoint collapseWhiteSpace (inRun : bool) (s : string) : string :=
  match s with
  | EmptyString => EmptyString
  | String c t =>
      if isWhiteSpace c
      then if inRun then collapseWhiteSpace true t
           else String " " (collapseWhiteSpace true t)
      else String c (collapseWhiteSpace false t)
  end.

(** [s.replace(/\n\s*\n/g, '\n')].  A match starts at a line feed and,
    [\s*] being greedy, runs to the last line feed of the white-space run
    that follows; the white space after that last line feed is kept.
    [pending] is [None] outside such a run and otherwise holds the white
    space seen since the last line feed of the run. *)
Fixpoint removeEmptyLines (pending : option string) (s : string) : string :=
  match s with
  | EmptyString =>
      match pending with
      | None => EmptyString
      | Some ws => LF ++ ws
      end
  | String c t =>
      match pending with
      | None =>
          if Ascii.eqb c (ascii_of_nat 10)
          then removeEmptyLines (Some EmptyString) t
          else String c (removeEmptyLines None t)
      | Some ws =>
          if Ascii.eqb c (ascii_of_nat 10)
          then removeEmptyLines (Some EmptyString) t
          else if isWhiteSpace c
          then removeEmptyLines (Some (ws ++ String c EmptyString)) t
          else LF ++ ws ++ String c (removeEmptyLines None t)
      end
  end.

(** [String(n)] for a non-negative integer [n] *)
Definition ofNat (n : nat) : string :=
  NilEmpty.string_of_uint (Nat.to_uint n).

(** ** Arrays *)

(** [array.push(x)] *)
Definition push {A} (l : list A) (x : A) : list A := (l ++ [x])%list.

(** [array.slice(0, to)] *)
Definition array_slice0 {A} (l : list A) (to : Z) : list A :=
  firstn (Z.to_nat (relative_index (Z.of_nat (List.length l)) to)) l.

(** [array.sort(compare)].  ECMAScript requires the sort to be stable;
    for a consistent comparator the result is then determined, and it
    is the one computed by this stable insertion sort.  An element [x]
    is moved behind [y] exactly when [compare(x, y) > 0]; a result that
    is zero or NaN leaves the two in their original order. *)
Section Sort.
Context {A num : Type} `{Number num}.
Variable compare : A -> A -> num.

Fixpoint sort_insert (x : A) (l : list A) : list A :=
  match l with
  | [] => [x]
  | y :: t =>
      if gt (compare x y) zero then y :: sort_insert x t
      else x :: y :: t
  end.

Definition sort (l : list A) : list A := fold_right sort_insert [] l.
End Sort.

(** ** Objects *)

Inductive Value : Type :=
| VString (s : string)
| VNumber (n : Z).

(** A plain object: its own properties in creation order. *)
Definition Object : Type := list (string * Value).

(** [obj[key]]; [None] is [undefined]. *)
Fixpoint get (key : string) (obj : Object) : option Value :=
  match obj with
  | [] => None
  | (k, v) :: t => if String.eqb k key then Some v else get key t
  end.

(** [{...obj, key: v}]: an existing property keeps its place and takes
    the new value, a new property goes last. *)
Fixpoint set (key : string) (v : Value) (obj : Object) : Object :=
  match obj with
  | [] => [(key, v)]
  | (k, w) :: t =>
      if String.eqb k key then (k, v) :: t else (k, w) :: set key v t
  end.

End JS.

(* ================================================================= *)
(** * Part II: the program *)
(* ================================================================= *)

(** ** vectorStore.js *)

Module SimpleVectorStore.
Import JS.
Local Open Scope string_scope.

Section WithNumbers.
Context {num : Type} `{Number num}.

(** The three parallel arrays of the class. *)
Record t : Type := mk {
  documents : list string;
  embeddings : list (list num);
  metadata : list Object
}.

(** One element of the array built by [search]; [None] stands for
    [undefined], the value of an array read past the end. *)
Record SearchResult : Type := mkResult {
  index : nat;
  similarity : num;
  document : option string;
  resultMetadata : option Object
}.

(** One element of the array built by [getAllDocuments]. *)
Record Entry : Type := mkEntry {
  entryIndex : nat;
  text : string;
  embedding : option (list num);
  entryMetadata : option Object
}.

(** [constructor()] *)
Definition new : t := mk [] [] [].

(** [addDocument(text, embedding, metadata)]; [now] is the value of
    [new Date().toISOString()] at the call. *)
Definition addDocument (s : t) (txt : string) (emb : list num)
           (meta : Object) (now : string) : t :=
  let documents' := push (documents s) txt in
  let embeddings' := push (embeddings s) emb in
  let id := (Z.of_nat (List.length documents') - 1)%Z in
  mk documents' embeddings'
     (push (metadata s)
        (set "timestamp" (VString now) (set "id" (VNumber id) meta))).

Definition DimensionMismatch : Error :=
  MkError "Vectors must be of the same length".

(** The [for] loop of [cosineSimilarity], run on vectors of one
    length: it walks both by the same index and accumulates
    [dotProduct], [normA] and [normB] from the left. *)
Fixpoint accumulate (vecA vecB : list num) (dotProduct normA normB : num)
  : num * num * num :=
  match vecA, vecB with
  | a :: ta, b :: tb =>
      accumulate ta tb (add dotProduct (mul a b))
                 (add normA (square a)) (add normB (square b))
  | _, _ => (dotProduct, normA, normB)
  end.

(** [cosineSimilarity(vecA, vecB)] *)
Definition cosineSimilarity (vecA vecB : list num) : completion num :=
  if negb (List.length vecA =? List.length vecB)%nat
  then Throw DimensionMismatch
  else
    let '(dotProduct, normA, normB) :=
      accumulate vecA vecB zero zero zero in
    let normA := sqrt normA in
    let normB := sqrt normB in
    if strict_eq normA zero || strict_eq normB zero
    then Normal zero
    else Normal (div dotProduct (mul normA normB)).

(** The comparator handed to [sort]:
    [(a, b) => b.similarity - a.similarity]. *)
Definition bySimilarity (a b : SearchResult) : num :=
  sub (similarity b) (similarity a).

(** The callback of [this.embeddings.map] in [search]. *)
Definition score (s : t) (queryEmbedding : list num) (i : nat)
           (emb : list num) : completion SearchResult :=
  bind (cosineSimilarity queryEmbedding emb) (fun sim =>
  Normal (mkResult i sim (nth_error (documents s) i)
                   (nth_error (metadata s) i))).

(** The TypeError that V8 raises for [undefined.substring]. *)
Definition UndefinedDocument : Error :=
  MkError "Cannot read properties of undefined (reading 'substring')".

(** The callback of [results.forEach] in [search].  It prints one line
    per result; the line is built from [result.index],
    [result.similarity.toFixed(4)], which a number always answers, and
    [result.document.substring(0, 50)], which throws when the document
    is [undefined]. *)
Definition logResult (result : SearchResult) : completion unit :=
  match document result with
  | Some _ => Normal tt
  | None => Throw UndefinedDocument
  end.

(** [search(queryEmbedding, topK)] *)
Definition search (s : t) (queryEmbedding : list num) (topK : Z)
  : completion (list SearchResult) :=
  if (List.length (embeddings s) =? 0)%nat then Normal []
  else
    bind (mapi (score s queryEmbedding) (embeddings s))
         (fun similarities =>
    let results :=
      array_slice0 (sort bySimilarity similarities) topK in
    bind (forEach logResult results) (fun _ => Normal results)).

(** [getAllDocuments()] *)
Definition getAllDocuments (s : t) : list Entry :=
  pure_mapi (fun i doc =>
               mkEntry i doc (nth_error (embeddings s) i)
                       (nth_error (metadata s) i))
            (documents s).

(** [getDocumentCount()] *)
Definition getDocumentCount (s : t) : Z :=
  Z.of_nat (List.length (documents s)).

(** [clear()] *)
Definition clear (s : t) : t := mk [] [] [].

End WithNumbers.

Arguments t num : clear implicits.
Arguments SearchResult num : clear implicits.
Arguments Entry num : clear implicits.

End SimpleVectorStore.

(** ** documents.js *)

Module DocumentProcessor.
Import JS.
Local Open Scope string_scope.
Local Open Scope Z_scope.

(** The two settings held by the object. *)
Record t : Type := mk {
  chunkSize : Z;     (* characters per chunk *)
  chunkOverlap : Z   (* overlap between chunks *)
}.

(** [constructor()] *)
Definition new : t := mk 500 50.

(** The value of [end] after the boundary search of one turn of the
    loop.  [x > start + this.chunkSize * 0.5] is compared doubled, so
    that it stays within the integers. *)
Definition chunkEnd (dp : t) (text : string) (start : Z) : Z :=
  let end_ := start + chunkSize dp in
  if end_ <? len text then
    let sentenceEnd := lastIndexOf text "." end_ in
    let questionEnd := lastIndexOf text "?" end_ in
    let exclamationEnd := lastIndexOf text "!" end_ in
    let sentenceBoundary :=
      Z.max (Z.max sentenceEnd questionEnd) exclamationEnd in
    if 2 * start + chunkSize dp <? 2 * sentenceBoundary
    then sentenceBoundary + 1
    else
      let wordBoundary := lastIndexOf text " " end_ in
      if 2 * start + chunkSize dp <? 2 * wordBoundary
      then wordBoundary
      else end_
  else end_.

(** The [while (start < text.length)] loop; every turn costs one unit
    of [fuel], and [None] tells that the fuel ran out before the loop
    condition failed. *)
Fixpoint chunkLoop (fuel : nat) (dp : t) (text : string)
         (chunks : list string) (start : Z) : option (list string) :=
  match fuel with
  | O => None
  | S fuel' =>
      if start <? len text then
        let end_ := chunkEnd dp text start in
        let chunk := trim (slice text start end_) in
        let chunks' :=
          if 0 <? len chunk then push chunks chunk else chunks in
        chunkLoop fuel' dp text chunks' (end_ - chunkOverlap dp)
      else Some chunks
  end.

(** [chunkText(text)] *)
Definition chunkText (fuel : nat) (dp : t) (text : string)
  : option (list string) :=
  if len text <=? chunkSize dp then Some [trim text]
  else chunkLoop fuel dp text [] 0.

(** [cleanText(text)] *)
Definition cleanText (text : string) : string :=
  trim (removeEmptyLines None (collapseWhiteSpace false text)).

(** The object returned by [processDocument]. *)
Record ProcessedDocument : Type := mkProcessed {
  originalText : string;
  chunks : list string;
  docMetadata : Object
}.

Section WithFiles.
(** The collaborators outside the repository: [fs.readFile(path,
    'utf-8')], [pdf-parse] applied to the file at a path, the text
    that [cheerio] finds in an HTML source, and the clock. *)
Variable readFile : string -> completion string.
Variable pdfText : string -> completion string.
Variable htmlText : string -> completion string.
Variable processedAt : string.

(** The three extractors log and re-throw. *)
Definition extractFromPDF (filePath : string) : completion string :=
  pdfText filePath.

Definition extractFromHTML (htmlContent : string) : completion string :=
  htmlText htmlContent.

Definition extractFromText (filePath : string) : completion string :=
  readFile filePath.

(** The [switch] of [processDocument]. *)
Definition extract (filePath fileType : string) : completion string :=
  let ft := toLowerCase fileType in
  if String.eqb ft "pdf" then extractFromPDF filePath
  else if String.eqb ft "txt" then extractFromText filePath
  else if String.eqb ft "html" || String.eqb ft "htm"
  then bind (readFile filePath) extractFromHTML
  else extractFromText filePath.

(** [processDocument(filePath, fileType)]; [None] when [chunkText]
    does not return within [fuel] turns. *)
Definition processDocument (fuel : nat) (dp : t)
           (filePath fileType : string)
  : option (completion ProcessedDocument) :=
  match extract filePath fileType with
  | Throw e => Some (Throw e)
  | Normal raw =>
      let text := cleanText raw in
      match chunkText fuel dp text with
      | None => None
      | Some chunks =>
          Some (Normal (mkProcessed text chunks
            [("filePath", VString filePath);
             ("fileType", VString fileType);
             ("textLength", VNumber (len text));
             ("chunkCount", VNumber (Z.of_nat (List.length chunks)));
             ("processedAt", VString processedAt)]))
      end
  end.
End WithFiles.

End DocumentProcessor.

(** ** The hosted inference service *)

Module InferenceClient.
Import JS.

(** A request sent to the service. *)
Inductive Request : Type :=
| FeatureExtraction (inputs : string)
| TextGeneration (inputs : string) (max_new_tokens : Z).

(** The service is outside the program: what it answers may depend on
    everything it was sent before.  [featureExtraction] resolves to the
    embedding or rejects; [textGeneration] resolves to the
    [generated_text] of its response or rejects. *)
Record Service (num : Type) : Type := mkService {
  featureExtraction : list Request -> string -> completion (list num);
  textGeneration : list Request -> string -> Z -> completion string
}.

End InferenceClient.

(** ** embedding.js *)

Module EmbeddingService.
Import JS InferenceClient.

Section WithService.
Context {num : Type}.
Variable hf : Service num.

(** [generateEmbedding(text)]: one request; a failure is logged and
    thrown again.  The second component is the log of requests. *)
Definition generateEmbedding (text : string) (sent : list Request)
  : completion (list num) * list Request :=
  (featureExtraction hf sent text, push sent (FeatureExtraction text)).

(** [generateEmbeddings(texts)]: [texts.map] issues one request for
    every text, in order, and [Promise.all] resolves to the embeddings
    in the order of the texts, or rejects as soon as one request has
    failed (here: with the failure of least index). *)
Fixpoint generateEmbeddings (texts : list string) (sent : list Request)
  : completion (list (list num)) * list Request :=
  match texts with
  | [] => (Normal [], sent)
  | text :: rest =>
      let (first, sent1) := generateEmbedding text sent in
      let (others, sent2) := generateEmbeddings rest sent1 in
      (bind first (fun e =>
       bind others (fun es => Normal (e :: es))), sent2)
  end.
End WithService.

End EmbeddingService.

(** ** generation.js *)

Module TextGenerator.
Import JS InferenceClient.
Local Open Scope string_scope.

(** A regular expression with the [g] flag, as the [while ((match =
    pattern.exec(context)) !== null)] loops use it: the function from
    the subject string to the successive matches.  None of the patterns
    of this file matches the empty string, so the loops see finitely
    many matches.  A match is represented by the parts the loop reads. *)
Definition RegExp (M : Type) : Type := string -> list M.

Section WithRegExps.
(** [namePatterns]: each pattern has one mandatory capture group, and
    the loop reads [match[1]]. *)
Variable namePatterns : list (RegExp string).
(** [datePatterns]: the loop reads [match[0]]. *)
Variable datePatterns : list (RegExp string).
(** [numberPattern]: three mandatory capture groups, read as
    [match[1]], [match[2]], [match[3]]. *)
Variable numberPattern : RegExp (string * string * string).
(** [locationPatterns]: the loop reads [match[0]] and [match[1]],
    which is [undefined] for the two patterns without a group. *)
Variable locationPatterns : list (RegExp (string * option string)).

(** [array.includes(s)] *)
Definition array_includes (l : list string) (s : string) : bool :=
  existsb (String.eqb s) l.

(** [extractNames(context)] *)
Definition extractNames (context : string) : list string :=
  fold_left
    (fun names (pattern : RegExp string) =>
       fold_left
         (fun names m1 =>
            let name := trim m1 in
            if negb (isEmpty name) && negb (array_includes names name)
            then push names name else names)
         (pattern context) names)
    namePatterns [].

(** [extractDates(context)] *)
Definition extractDates (context : string) : list string :=
  fold_left
    (fun dates (pattern : RegExp string) =>
       fold_left
         (fun dates m0 =>
            if negb (array_includes dates m0)
            then push dates m0 else dates)
         (pattern context) dates)
    datePatterns [].

(** [extractNumbers(context)] *)
Definition extractNumbers (context : string) : list string :=
  let numbers :=
    fold_left
      (fun numbers '(m1, value, m3) =>
         let label := trim m1 in
         let unit := m3 in
         if (2 <? len label)%Z && (len label <? 50)%Z
         then push numbers
                   (label ++ ": " ++ value ++
                    (if isEmpty unit then "" else " " ++ unit))
         else numbers)
      (numberPattern context) [] in
  firstn 10 numbers.

(** [extractLocations(context)] *)
Definition extractLocations (context : string) : list string :=
  fold_left
    (fun locations (pattern : RegExp (string * option string)) =>
       fold_left
         (fun locations '(m0, m1) =>
            let location :=
              match m1 with
              | Some g => if isEmpty g then m0 else g
              | None => m0
              end in
            if negb (isEmpty location)
               && negb (array_includes locations (trim location))
            then push locations (trim location) else locations)
         (pattern context) locations)
    locationPatterns [].

(** [extractRelevantInfo(question, context)] *)
Definition extractRelevantInfo (question context : string)
  : list string :=
  let questionLower := toLowerCase question in
  let info := [] in
  let info :=
    if includes questionLower "name" || includes questionLower "who"
    then let names := extractNames context in
         if (0 <? List.length names)%nat
         then push info ("Names mentioned: " ++ join ", " names)
         else info
    else info in
  let info :=
    if includes questionLower "date" || includes questionLower "when"
    then let dates := extractDates context in
         if (0 <? List.length dates)%nat
         then push info ("Dates mentioned: " ++ join ", " dates)
         else info
    else info in
  let info :=
    if includes questionLower "number"
       || includes questionLower "amount"
       || includes questionLower "value"
    then let numbers := extractNumbers context in
         if (0 <? List.length numbers)%nat
         then push info ("Key numbers: " ++ join ", " numbers)
         else info
    else info in
  let info :=
    if includes questionLower "location"
       || includes questionLower "where"
       || includes questionLower "address"
    then let locations := extractLocations context in
         if (0 <? List.length locations)%nat
         then push info
                   ("Locations mentioned: " ++ join ", " locations)
         else info
    else info in
  info.

(** The message returned when nothing at all matches. *)
Definition apology : string :=
  "I found relevant information in the documents, but I'm having trouble generating a specific answer right now. Please try rephrasing your question or asking about specific topics mentioned in the document.".

(** The [forEach] that numbers the extracted lines. *)
Definition numbered (answer : string) (extractedInfo : list string)
  : string :=
  fold_left (fun answer line => answer ++ line)
            (pure_mapi (fun index info =>
                          ofNat (index + 1) ++ ". " ++ info ++ LF)
                       extractedInfo)
            answer.

(** The keyword matching of [createFallbackAnswer]: the sentences of the
    context, longer than ten characters once trimmed, that contain a word
    of the question longer than three characters. *)
Definition keywordSentences (question context : string) : list string :=
  let questionWords :=
    filter (fun word => (3 <? len word)%Z)
           (split_char " " (toLowerCase question)) in
  let sentences :=
    filter (fun s => (10 <? len (trim s))%Z)
           (split_terminators false context) in
  filter (fun sentence =>
            let sentenceLower := toLowerCase sentence in
            existsb (fun word => includes sentenceLower word)
                    questionWords)
         sentences.

(** [createFallbackAnswer(question, context)] *)
Definition createFallbackAnswer (question context : string) : string :=
  let extractedInfo := extractRelevantInfo question context in
  if (0 <? List.length extractedInfo)%nat
  then numbered ("Based on the document content:" ++ LF ++ LF)
                extractedInfo
  else
    let relevantSentences := keywordSentences question context in
    if (0 <? List.length relevantSentences)%nat
    then
      let topSentences := firstn 3 relevantSentences in
      join ". " (map trim topSentences) ++ "."
    else apology.

(** [createPrompt(question, context)] *)
Definition createPrompt (question context : string) : string :=
  "Based on the following information, please provide a detailed and well-structured answer."
    ++ LF ++ LF
    ++ "CONTEXT INFORMATION:" ++ LF
    ++ context ++ LF ++ LF
    ++ "QUESTION: " ++ question ++ LF ++ LF
    ++ "INSTRUCTIONS: Please provide a comprehensive answer that:" ++ LF
    ++ "1. Directly answers the question based on the context" ++ LF
    ++ "2. Includes specific details and data from the documents" ++ LF
    ++ "3. Is well-organized with clear sections if needed" ++ LF
    ++ "4. Cites relevant information from the source material" ++ LF
    ++ "5. Is accurate and factual based only on the provided context"
    ++ LF ++ LF
    ++ "ANSWER:".

(** [s.replace(/^\s*label\s*/i, '')] for a lower-case ASCII [label]. *)
Definition dropLabel (label s : string) : string :=
  let s1 := trimStart s in
  if startsWith label (toLowerCase s1)
  then trimStart (substring (String.length label) (String.length s1) s1)
  else s.

(** [cleanAnswer(answer)] *)
Definition cleanAnswer (answer : string) : string :=
  trim (removeEmptyLines None
          (dropLabel "answer:" (dropLabel "a:"
             (dropLabel "answer:" answer)))).

Section WithService.
Context {num : Type}.
Variable hf : Service num.

(** [generateAnswer(question, context)], with the default
    [maxLength = 300].  An empty [generated_text] is falsy, so that
    [answer] is then the response object, whose missing [substring]
    raises a [TypeError] inside the [try]: the [catch] block runs
    as it does when the request is rejected. *)
Definition generateAnswer (question context : string)
           (sent : list Request) : string * list Request :=
  let maxLength := 300%Z in
  let prompt := createPrompt question context in
  let sent' := push sent (TextGeneration prompt maxLength) in
  match textGeneration hf sent prompt maxLength with
  | Normal generated_text =>
      if isEmpty generated_text
      then (createFallbackAnswer question context, sent')
      else (cleanAnswer (trim (remove_first prompt generated_text)),
            sent')
  | Throw _ => (createFallbackAnswer question context, sent')
  end.

(** The [for] loop of [generateMultipleAnswers], [turns] turns of it;
    the pause between two requests is not modelled. *)
Fixpoint generateAnswers (turns : nat) (question context : string)
         (sent : list Request) : list string * list Request :=
  match turns with
  | O => ([], sent)
  | S turns' =>
      let (answer, sent1) := generateAnswer question context sent in
      let (answers, sent2) := generateAnswers turns' question context sent1 in
      (answer :: answers, sent2)
  end.

(** [generateMultipleAnswers(question, context, count)] for an integer
    [count].  [generateAnswer] catches whatever is thrown inside it, so
    the [catch] block of this function is never entered. *)
Definition generateMultipleAnswers (question context : string) (count : Z)
           (sent : list Request) : list string * list Request :=
  generateAnswers (Z.to_nat count) question context sent.
End WithService.
End WithRegExps.

End TextGenerator.

(** ** retrieval.js *)

Module RAGSystem.
Import JS InferenceClient.
Local Open Scope string_scope.

Section WithWorld.
Context {num : Type} `{Number num}.

(** What lies outside the repository: the inference service, the
    number formatting of the engine ([similarity.toFixed(4)]), the
    file readers, the regular expressions, and the clock ([now n] is
    [new Date().toISOString()] read while the store holds [n]
    entries). *)
Variable hf : Service num.
Variable toFixed : num -> Z -> string.
Variable readFile pdfText htmlText : string -> completion string.
Variable processedAt : string.
Variable now : nat -> string.
Variable namePatterns datePatterns : list (TextGenerator.RegExp string).
Variable numberPattern : TextGenerator.RegExp (string * string * string).
Variable locationPatterns :
  list (TextGenerator.RegExp (string * option string)).

(** The mutable state behind a [RAGSystem] object, together with the
    log of the requests sent to the inference service so far. *)
Record t : Type := mk {
  vectorStore : SimpleVectorStore.t num;
  documentProcessor : DocumentProcessor.t;
  sent : list Request
}.

(** [constructor()] *)
Definition new : t :=
  mk SimpleVectorStore.new DocumentProcessor.new [].

Inductive AddResponse : Type :=
| AddSuccess (chunksAdded totalDocuments : Z) (metadata : Object)
| AddFailure (error : string).

Definition addSucceeded (r : AddResponse) : bool :=
  match r with AddSuccess _ _ _ => true | AddFailure _ => false end.

(** The [forEach] of [addDocument]: chunk [index] goes into the store
    with [embeddings[index]], which exists because [Promise.all]
    resolves to one embedding for every chunk. *)
Fixpoint insertChunks (filePath fileType : string) (total : nat)
         (index : nat) (chunks : list string)
         (embeddings : list (list num)) (store : SimpleVectorStore.t num)
  : SimpleVectorStore.t num :=
  match chunks with
  | [] => store
  | chunk :: rest =>
      insertChunks filePath fileType total (S index) rest embeddings
        (SimpleVectorStore.addDocument store chunk
           (nth index embeddings [])
           [("sourceFile", VString filePath);
            ("fileType", VString fileType);
            ("chunkIndex", VNumber (Z.of_nat index));
            ("totalChunks", VNumber (Z.of_nat total))]
           (now (List.length (SimpleVectorStore.documents store))))
  end.

(** [addDocument(filePath, fileType)]; [None] when the chunking of the
    document does not return within [fuel] turns of its loop. *)
Definition addDocument (fuel : nat) (sys : t) (filePath fileType : string)
  : option (AddResponse * t) :=
  match DocumentProcessor.processDocument readFile pdfText htmlText
          processedAt fuel (documentProcessor sys) filePath fileType with
  | None => None
  | Some (Throw error) => Some (AddFailure (message error), sys)
  | Some (Normal processedDoc) =>
      let chunks := DocumentProcessor.chunks processedDoc in
      let (outcome, sent') :=
        EmbeddingService.generateEmbeddings hf chunks (sent sys) in
      match outcome with
      | Throw error =>
          Some (AddFailure (message error),
                mk (vectorStore sys) (documentProcessor sys) sent')
      | Normal embeddings =>
          let store' :=
            insertChunks filePath fileType (List.length chunks) 0
                         chunks embeddings (vectorStore sys) in
          Some (AddSuccess
                  (Z.of_nat (List.length chunks))
                  (SimpleVectorStore.getDocumentCount store')
                  (DocumentProcessor.docMetadata processedDoc),
                mk store' (documentProcessor sys) sent')
      end
  end.

(** [`${value}`] for a string that may be [undefined]. *)
Definition interpolate (value : option string) : string :=
  match value with
  | Some s => s
  | None => "undefined"
  end.

(** [createContext(searchResults)] *)
Definition createContext
           (searchResults : list (SimpleVectorStore.SearchResult num))
  : string :=
  join LF
    (pure_mapi
       (fun index result =>
          "=== Document Section " ++ ofNat (index + 1) ++ " ===" ++ LF
            ++ interpolate (SimpleVectorStore.document result) ++ LF)
       searchResults).

(** One element of [relevantDocuments]. *)
Record RelevantDocument : Type := mkRelevant {
  preview : string;
  shownSimilarity : string;
  shownMetadata : option Object
}.

(** The [map] that builds [relevantDocuments]; reading [substring]
    from an [undefined] document raises a [TypeError]. *)
Definition relevantDocument
           (result : SimpleVectorStore.SearchResult num)
  : completion RelevantDocument :=
  match SimpleVectorStore.document result with
  | None =>
      Throw (MkError
        "Cannot read properties of undefined (reading 'substring')")
  | Some doc =>
      Normal (mkRelevant
                (substring0 doc 100 ++ "...")
                (toFixed (SimpleVectorStore.similarity result) 4)
                (SimpleVectorStore.resultMetadata result))
  end.

Inductive AskResponse : Type :=
| AskSuccess (answer context : string)
             (relevantDocuments : list RelevantDocument)
| AskFailure (error : string).

(** The fields [success] and [answer] of the response; [None] is the
    [null] of the failure responses. *)
Definition success (r : AskResponse) : bool :=
  match r with AskSuccess _ _ _ => true | AskFailure _ => false end.

Definition answer (r : AskResponse) : option string :=
  match r with AskSuccess a _ _ => Some a | AskFailure _ => None end.

Definition error (r : AskResponse) : option string :=
  match r with AskSuccess _ _ _ => None | AskFailure e => Some e end.

Definition noDocuments : string :=
  "No documents in the system. Please add documents first".

Definition noRelevantDocuments : string :=
  "No relevant documents found for the question".

(** [askQuestion(question, topK)] *)
Definition askQuestion (sys : t) (question : string) (topK : Z)
  : AskResponse * t :=
  if (SimpleVectorStore.getDocumentCount (vectorStore sys) =? 0)%Z
  then (AskFailure noDocuments, sys)
  else
    let (embedded, sent1) :=
      EmbeddingService.generateEmbedding hf question (sent sys) in
    let sys1 := mk (vectorStore sys) (documentProcessor sys) sent1 in
    match embedded with
    | Throw error => (AskFailure (message error), sys1)
    | Normal questionEmbedding =>
        match SimpleVectorStore.search (vectorStore sys)
                questionEmbedding topK with
        | Throw error => (AskFailure (message error), sys1)
        | Normal searchResults =>
            if (List.length searchResults =? 0)%nat
            then (AskFailure noRelevantDocuments, sys1)
            else
              let context := createContext searchResults in
              let (answer, sent2) :=
                TextGenerator.generateAnswer
                  namePatterns datePatterns numberPattern
                  locationPatterns hf question context sent1 in
              let sys2 :=
                mk (vectorStore sys) (documentProcessor sys) sent2 in
              match mapi (fun _ => relevantDocument) searchResults with
              | Throw error => (AskFailure (message error), sys2)
              | Normal docs => (AskSuccess answer context docs, sys2)
              end
        end
    end.

(** [clearSystem()] and [setChunkSize(size)] *)
Definition clearSystem (sys : t) : t :=
  mk (SimpleVectorStore.clear (vectorStore sys))
     (documentProcessor sys) (sent sys).

Definition setChunkSize (sys : t) (size : Z) : t :=
  mk (vectorStore sys)
     (DocumentProcessor.mk size
        (DocumentProcessor.chunkOverlap (documentProcessor sys)))
     (sent sys).

End WithWorld.

Arguments t num : clear implicits.

End RAGSystem.

(* ================================================================= *)
(** * Part III: the notions the specification speaks in *)
(* ================================================================= *)

Module Spec.
Import JS.
Local Open Scope string_scope.

Section WithNumbers.
Context {num : Type} `{Number num}.

(** The public operations of the class, and the store each leaves
    behind; [search], [getAllDocuments] and [getDocumentCount] only
    read. *)
Inductive Operation : Type :=
| OpAddDocument (txt : string) (emb : list num) (meta : Object)
                (now : string)
| OpSearch (queryEmbedding : list num) (topK : Z)
| OpGetAllDocuments
| OpGetDocumentCount
| OpClear.

Definition apply (s : SimpleVectorStore.t num) (op : Operation)
  : SimpleVectorStore.t num :=
  match op with
  | OpAddDocument txt emb meta now =>
      SimpleVectorStore.addDocument s txt emb meta now
  | OpSearch _ _ => s
  | OpGetAllDocuments => s
  | OpGetDocumentCount => s
  | OpClear => SimpleVectorStore.clear s
  end.

(** The store reached from a fresh one by a sequence of calls. *)
Definition run (ops : list Operation) : SimpleVectorStore.t num :=
  fold_left apply ops SimpleVectorStore.new.

(** The representation invariant of the class. *)
Definition consistent (s : SimpleVectorStore.t num) : Prop :=
  List.length (SimpleVectorStore.embeddings s)
  = List.length (SimpleVectorStore.documents s) /\
  List.length (SimpleVectorStore.metadata s)
  = List.length (SimpleVectorStore.documents s) /\
  forall i m, nth_error (SimpleVectorStore.metadata s) i = Some m ->
              get "id" m = Some (VNumber (Z.of_nat i)).

(** The norm of a vector as [cosineSimilarity] computes it: the square
    root of the squares summed from the left. *)
Definition norm (v : list num) : num :=
  sqrt (fold_left (fun acc x => add acc (square x)) v zero).

(** A vector all of whose coordinates are zero ([0] or [-0]). *)
Definition zeroVector (v : list num) : Prop :=
  Forall (fun x => strict_eq x zero = true) v.

(** The value of [cosineSimilarity] where it does not throw. *)
Definition cosine (a b : list num) : num :=
  match SimpleVectorStore.cosineSimilarity a b with
  | Normal x => x
  | Throw _ => zero
  end.

(** Every entry of the store with its similarity to the query, in
    insertion order. *)
Definition scoredEntries (s : SimpleVectorStore.t num) (q : list num)
  : list (SimpleVectorStore.SearchResult num) :=
  pure_mapi (fun i emb =>
               SimpleVectorStore.mkResult i (cosine q emb)
                 (nth_error (SimpleVectorStore.documents s) i)
                 (nth_error (SimpleVectorStore.metadata s) i))
            (SimpleVectorStore.embeddings s).

(** [<] orders the numbers of [l] as a strict weak order, and the sign
    of a difference agrees with it.  This is what makes the comparator
    of [search] consistent; it holds for numbers that are not NaN. *)
Definition ordered3 (x y z : num) : bool :=
  Bool.eqb (gt (sub y x) zero) (lt x y)
  && (negb (lt x y) || negb (lt y x))
  && (lt x y || lt y z || negb (lt x z)).

Definition comparable (l : list num) : bool :=
  forallb (fun x => forallb (fun y => forallb (ordered3 x y) l) l) l.

(** A result list is in non-increasing similarity order when no result
    has a smaller similarity than one that comes after it. *)
Definition notBelow (a b : SimpleVectorStore.SearchResult num) : Prop :=
  lt (SimpleVectorStore.similarity a) (SimpleVectorStore.similarity b)
  = false.

Definition nonIncreasing (l : list (SimpleVectorStore.SearchResult num))
  : Prop :=
  StronglySorted notBelow l.
End WithNumbers.

(** The context blocks as section 6 of the specification words them:
    [=== Document Section <N> ===\n<chunk text>\n], sections joined with
    a blank line. *)
Definition contextBlock (n : nat) (chunkText : string) : string :=
  "=== Document Section " ++ ofNat n ++ " ===" ++ LF ++ chunkText ++ LF.

Fixpoint contextBlocks (n : nat) (chunkTexts : list string) : string :=
  match chunkTexts with
  | [] => ""
  | [c] => contextBlock n c
  | c :: rest => contextBlock n c ++ LF ++ contextBlocks (S n) rest
  end.

Arguments Operation num : clear implicits.

(** A chunk is empty after trimming. *)
Definition blank (chunk : string) : Prop := trim chunk = "".

(** Among results of equal similarity, the one inserted first comes
    first: [b] may follow [a] when [b] is smaller than [a], or was
    inserted later. *)
Definition tiesInInsertionOrder {num : Type} `{Number num}
           (a b : SimpleVectorStore.SearchResult num) : Prop :=
  lt (SimpleVectorStore.similarity b) (SimpleVectorStore.similarity a)
  = false ->
  (SimpleVectorStore.index a < SimpleVectorStore.index b)%nat.

(** White space occurs in [s] only as single space characters, never
    two in a row; [afterSpace] tells that a space comes just before. *)
Fixpoint singleSpaced (afterSpace : bool) (s : string) : bool :=
  match s with
  | EmptyString => true
  | String c t =>
      if isWhiteSpace c
      then Ascii.eqb c " " && negb afterSpace && singleSpaced true t
      else singleSpaced false t
  end.

(** [piece] is a contiguous part of [s]. *)
Definition partOf (piece s : string) : Prop :=
  exists before after, s = before ++ piece ++ after.

(** The windows [(start, end)] that the successive turns of the loop of
    [chunkText] cut, from the cursor [start] on; [None] when the loop
    does not end within [fuel] turns. *)
Fixpoint windows (fuel : nat) (dp : DocumentProcessor.t) (text : string)
         (start : Z) : option (list (Z * Z)) :=
  match fuel with
  | O => None
  | S fuel' =>
      if (start <? len text)%Z then
        let end_ := DocumentProcessor.chunkEnd dp text start in
        match windows fuel' dp text
                      (end_ - DocumentProcessor.chunkOverlap dp)%Z with
        | Some rest => Some ((start, end_) :: rest)
        | None => None
        end
      else Some []
  end.

(** The chunks that a list of windows leaves: every window sliced and
    trimmed, the empty ones dropped. *)
Definition chunksOf (text : string) (ws : list (Z * Z)) : list string :=
  filter (fun chunk => (0 <? len chunk)%Z)
         (map (fun w => trim (slice text (fst w) (snd w))) ws).

End Spec.

(** ** Sample data *)

Module Examples.
Import JS InferenceClient.
Local Open Scope string_scope.

(** A store holding three chunks with two-dimensional embeddings. *)
Definition threeChunks : SimpleVectorStore.t float :=
  Spec.run
    [Spec.OpAddDocument "alpha" [1; 0]%float [] "t0";
     Spec.OpAddDocument "beta" [0; 1]%float [] "t1";
     Spec.OpAddDocument "gamma" [1; 1]%float [] "t2"].

Definition query : list float := [1; 0.5]%float.

(** A service that embeds every text as [query] and rejects every
    generation request, and one whose embedding requests are rejected
    once something has been sent. *)
Definition unavailable : Error := MkError "Service Unavailable".

Definition generationDown : Service float :=
  mkService (fun _ _ => Normal query) (fun _ _ _ => Throw unavailable).

Definition embeddingFlaky : Service float :=
  mkService (fun sent _ =>
               match sent with
               | [] => Normal query
               | _ => Throw unavailable
               end)
            (fun _ _ _ => Throw unavailable).

(** A file system with one text file, whatever the path. *)
Definition oneFile (content : string) : string -> completion string :=
  fun _ => Normal content.

(** Regular expressions that match nowhere. *)
Definition noMatch {M : Type} : TextGenerator.RegExp M := fun _ => [].

(** A stand-in for [Number.prototype.toFixed]. *)
Definition showFixed (x : float) (digits : Z) : string := "0.0000".

Definition system (store : SimpleVectorStore.t float) : RAGSystem.t float :=
  RAGSystem.mk store DocumentProcessor.new [].

(** [chunkSize = 10] and [chunkOverlap = 8], with a text of twenty
    characters whose only full stop is at index 7. *)
Definition looping : DocumentProcessor.t := DocumentProcessor.mk 10 8.

Definition loopingText : string := "aaaaaaa.aaaaaaaaaaaa".

(** Seventy characters whose only full stop is at index 49. *)
Definition longSentence : string :=
  "aaaaaaaaaaaaaaaaaaaaaaaaaaaaaaaaaaaaaaaaaaaaaaaaa.aaaaaaaaaaaaaaaaaaaa".

(** [chunkSize = 10] and [chunkOverlap = 5]. *)
Definition halfOverlap : DocumentProcessor.t := DocumentProcessor.mk 10 5.

(** Two search results, as [search] ranks them. *)
Definition twoResults : list (SimpleVectorStore.SearchResult float) :=
  [SimpleVectorStore.mkResult 2 0.75%float (Some "gamma") None;
   SimpleVectorStore.mkResult 0 0.5%float (Some "alpha") None].

(** The results of searching [threeChunks] for [query] with [topK = 2]. *)
Definition topTwo : list (SimpleVectorStore.SearchResult float) :=
  match SimpleVectorStore.search threeChunks query 2 with
  | Normal results => results
  | Throw _ => []
  end.

(** A system with small chunks, and what [processDocument] makes of the
    one file in thirty turns. *)
Definition smallChunks : RAGSystem.t float :=
  RAGSystem.mk SimpleVectorStore.new halfOverlap [].

Definition processed : DocumentProcessor.ProcessedDocument :=
  match DocumentProcessor.processDocument
          (oneFile loopingText) (oneFile loopingText) (oneFile loopingText)
          "t" 30 halfOverlap "notes.txt" "txt" with
  | Some (Normal doc) => doc
  | _ => DocumentProcessor.mkProcessed "" [] []
  end.

(** A store whose first and third chunk have the same embedding. *)
Definition tied : SimpleVectorStore.t float :=
  Spec.run
    [Spec.OpAddDocument "first" [1; 1]%float [] "t0";
     Spec.OpAddDocument "other" [0; 1]%float [] "t1";
     Spec.OpAddDocument "again" [1; 1]%float [] "t2"].

(** A service that embeds every text as [query] and answers a prompt
    with the prompt itself followed by a labelled answer. *)
Definition echoing : Service float :=
  mkService (fun _ _ => Normal query)
            (fun _ prompt _ => Normal (prompt ++ " Answer: forty-two. ")).

(** A service that rejects every request. *)
Definition down : Service float :=
  mkService (fun _ _ => Throw unavailable) (fun _ _ _ => Throw unavailable).

(** A file system without any readable file. *)
Definition noFile : string -> completion string :=
  fun _ => Throw (MkError "ENOENT: no such file or directory").

(** Regular expressions that find the same two names twice over. *)
Definition repeatedNames : list (TextGenerator.RegExp string) :=
  [fun _ => [" Ada Lovelace"; "Alan Turing"; "Ada Lovelace "];
   fun _ => ["Alan Turing"; "  "]].

(** Twenty characters with a full stop at index 10, the right edge of
    the first window for [chunkSize = 10]. *)
Definition stopAtEdge : string := "aaaaaaaaaa.aaaaaaaaa".

End Examples.

(* ================================================================= *)
(** * Part IV: properties *)
(* ================================================================= *)

(** ** Completions and arrays *)

Module JSFacts.
Import JS.

Lemma mapi_from_length A B (f : nat -> A -> completion B) l :
  forall i ys, mapi_from f i l = Normal ys -> List.length ys = List.length l.
Proof.
  induction l as [|x t IH]; intros i ys; simpl.
  - intros E; inversion E; reflexivity.
  - destruct (f i x) as [y|e]; simpl; [|discriminate].
    destruct (mapi_from f (S i) t) as [zs|e] eqn:Et; simpl; [|discriminate].
    intros E; inversion E; subst; simpl.
    f_equal; eapply IH; eassumption.
Qed.

(** A map whose callback can only throw [err] throws [err] as soon as
    the callback throws on one element. *)
Lemma mapi_from_throw A B (f : nat -> A -> completion B) (err : Error) l :
  (forall i x e, f i x = Throw e -> e = err) ->
  forall i, (exists x, In x l /\ forall j, f j x = Throw err) ->
            mapi_from f i l = Throw err.
Proof.
  intros Honly; induction l as [|x t IH]; intros i [a [Hin Ha]].
  - destruct Hin.
  - simpl. destruct (f i x) as [y|e] eqn:Ex; simpl.
    + destruct Hin as [->|Hin].
      * rewrite Ha in Ex; discriminate.
      * rewrite (IH (S i)) by (exists a; auto). reflexivity.
    + f_equal; eapply Honly; eassumption.
Qed.

(** A map whose callback never throws returns the pure map. *)
Lemma mapi_from_normal A B (f : nat -> A -> completion B)
      (g : nat -> A -> B) l :
  forall i, (forall j x, In x l -> f j x = Normal (g j x)) ->
            mapi_from f i l = Normal (pure_mapi_from g i l).
Proof.
  induction l as [|x t IH]; intros i Hf; simpl; [reflexivity|].
  rewrite Hf by (left; reflexivity); simpl.
  rewrite IH by (intros; apply Hf; right; assumption).
  reflexivity.
Qed.

Lemma pure_mapi_from_length A B (f : nat -> A -> B) l :
  forall i, List.length (pure_mapi_from f i l) = List.length l.
Proof. induction l; intros; simpl; auto. Qed.

Lemma pure_mapi_from_nth A B (f : nat -> A -> B) l :
  forall i k y, nth_error (pure_mapi_from f i l) k = Some y ->
                exists x, nth_error l k = Some x /\ y = f (i + k) x.
Proof.
  induction l as [|x t IH]; intros i k y.
  - destruct k; discriminate.
  - destruct k as [|k]; simpl.
    + intros E; inversion E; subst. exists x; split; auto.
      f_equal; lia.
    + intros E. destruct (IH _ _ _ E) as [x' [Hx' ->]].
      exists x'; split; auto. f_equal; lia.
Qed.

Lemma pure_mapi_from_In A B (f : nat -> A -> B) l :
  forall i y, In y (pure_mapi_from f i l) ->
              exists k x, nth_error l k = Some x /\ y = f (i + k) x.
Proof.
  intros i y Hin. apply In_nth_error in Hin. destruct Hin as [k Hk].
  destruct (pure_mapi_from_nth _ _ _ _ Hk) as [x [Hx ->]]. eauto.
Qed.

(** The sort rearranges and keeps every element. *)
Section SortFacts.
Context {A num : Type} `{Number num}.
Variable compare : A -> A -> num.

Lemma sort_insert_perm x l :
  Permutation (sort_insert compare x l) (x :: l).
Proof.
  induction l as [|y t IH]; simpl; [reflexivity|].
  destruct (gt (compare x y) zero); [|reflexivity].
  rewrite IH. apply perm_swap.
Qed.

Lemma sort_perm l : Permutation (sort compare l) l.
Proof.
  induction l as [|x t IH]; simpl; [reflexivity|].
  rewrite sort_insert_perm. constructor; assumption.
Qed.

Lemma sort_length l : List.length (sort compare l) = List.length l.
Proof. apply Permutation_length, sort_perm. Qed.

Lemma sort_In x l : In x (sort compare l) <-> In x l.
Proof.
  split; apply Permutation_in;
    [apply sort_perm | apply Permutation_sym, sort_perm].
Qed.
End SortFacts.

Lemma array_slice0_length A (l : list A) to :
  (0 <= to)%Z ->
  Z.of_nat (List.length (array_slice0 l to)) = Z.min to (Z.of_nat (List.length l)).
Proof.
  intros Hto. unfold array_slice0, relative_index.
  destruct (Z.ltb_spec to 0); [lia|].
  rewrite length_firstn. lia.
Qed.

Lemma array_slice0_all A (l : list A) to :
  (Z.of_nat (List.length l) <= to)%Z -> array_slice0 l to = l.
Proof.
  intros Hto. unfold array_slice0, relative_index.
  destruct (Z.ltb_spec to 0); [lia|].
  apply firstn_all2. lia.
Qed.

Lemma firstn_In A (l : list A) :
  forall n x, In x (firstn n l) -> In x l.
Proof.
  induction l as [|y t IH]; intros [|n] x; simpl; try tauto.
  intros [->|Hin]; [left; reflexivity | right; eapply IH; eassumption].
Qed.

Lemma array_slice0_In A (l : list A) to x :
  In x (array_slice0 l to) -> In x l.
Proof. unfold array_slice0. apply firstn_In. Qed.

Lemma firstn_StronglySorted A (R : A -> A -> Prop) (l : list A) :
  StronglySorted R l -> forall n, StronglySorted R (firstn n l).
Proof.
  induction 1 as [|y t Hs IH Hall]; intros [|n]; simpl; constructor.
  - apply IH.
  - rewrite Forall_forall in *. intros z Hz. apply Hall.
    eapply firstn_In; eassumption.
Qed.

(** Objects: a property just written is the one read back. *)
Lemma get_set_same key v obj : get key (set key v obj) = Some v.
Proof.
  induction obj as [|[k w] t IH]; simpl.
  - rewrite String.eqb_refl; reflexivity.
  - destruct (String.eqb k key) eqn:E; simpl; rewrite E; auto.
Qed.

Lemma get_set_other key key' v obj :
  key <> key' -> get key (set key' v obj) = get key obj.
Proof.
  intros Hne. induction obj as [|[k w] t IH]; simpl.
  - destruct (String.eqb_spec key' key); [congruence|reflexivity].
  - destruct (String.eqb_spec k key'); simpl.
    + subst. destruct (String.eqb_spec key' key); [congruence|reflexivity].
    + destruct (String.eqb k key); auto.
Qed.

End JSFacts.

(** ** vectorStore.js *)

Module VectorStoreFacts.
Import JS JSFacts SimpleVectorStore Spec.
Local Open Scope string_scope.

Section WithNumbers.
Context {num : Type} `{Number num}.

(** *** The representation invariant *)

Lemma consistent_new : consistent (new (num := num)).
Proof.
  repeat split; simpl; auto.
  intros [|i] m; discriminate.
Qed.

Lemma consistent_addDocument (s : t num) txt emb meta now :
  consistent s -> consistent (addDocument s txt emb meta now).
Proof.
  intros (He & Hm & Hid). unfold addDocument, push; repeat split; simpl.
  - rewrite !length_app; simpl; lia.
  - rewrite !length_app; simpl; lia.
  - intros i m Hi.
    destruct (Nat.lt_ge_cases i (List.length (metadata s))) as [Hlt|Hge].
    + rewrite nth_error_app1 in Hi by assumption. eauto.
    + rewrite nth_error_app2 in Hi by assumption.
      destruct (i - List.length (metadata s))%nat as [|k] eqn:Ek;
        simpl in Hi; [|destruct k; discriminate].
      inversion Hi; subst m; clear Hi.
      rewrite get_set_other by discriminate.
      rewrite get_set_same. do 2 f_equal.
      rewrite length_app; simpl. lia.
Qed.

Lemma consistent_apply (s : t num) op :
  consistent s -> consistent (apply s op).
Proof.
  destruct op; simpl; auto using consistent_addDocument, consistent_new.
Qed.

Lemma consistent_run (ops : list (Operation num)) : consistent (run ops).
Proof.
  unfold run. generalize (consistent_new).
  generalize (new (num := num)) as s.
  induction ops as [|op ops IH]; intros s Hs; simpl; auto.
  apply IH, consistent_apply, Hs.
Qed.

Lemma getAllDocuments_length (s : t num) :
  List.length (getAllDocuments s) = List.length (documents s).
Proof. apply pure_mapi_from_length. Qed.

Lemma getAllDocuments_entry (s : t num) i e :
  nth_error (getAllDocuments s) i = Some e ->
  entryIndex e = i /\
  nth_error (documents s) i = Some (text e) /\
  embedding e = nth_error (embeddings s) i /\
  entryMetadata e = nth_error (metadata s) i.
Proof.
  intros Hi. apply pure_mapi_from_nth in Hi.
  destruct Hi as [doc [Hdoc ->]]; simpl; auto.
Qed.

(** *** Similarity *)

Lemma cosineSimilarity_same_length (a b : list num) :
  List.length a = List.length b ->
  cosineSimilarity a b = Normal (cosine a b).
Proof.
  intros Hlen. unfold cosine, cosineSimilarity.
  rewrite Hlen, Nat.eqb_refl; simpl.
  destruct (accumulate a b zero zero zero) as [[d x] y].
  destruct (strict_eq (sqrt x) zero || strict_eq (sqrt y) zero);
    reflexivity.
Qed.

Lemma cosineSimilarity_mismatch (a b : list num) :
  List.length a <> List.length b ->
  cosineSimilarity a b = Throw DimensionMismatch.
Proof.
  intros Hlen. unfold cosineSimilarity.
  apply Nat.eqb_neq in Hlen. rewrite Hlen. reflexivity.
Qed.

Lemma cosineSimilarity_throws_only (a b : list num) e :
  cosineSimilarity a b = Throw e -> e = DimensionMismatch.
Proof.
  unfold cosineSimilarity.
  destruct (negb (List.length a =? List.length b)%nat).
  - intros E; inversion E; reflexivity.
  - destruct (accumulate a b zero zero zero) as [[d x] y].
    destruct (strict_eq (sqrt x) zero || strict_eq (sqrt y) zero);
      discriminate.
Qed.

Lemma accumulate_norms (a : list num) :
  forall (b : list num) d x y,
    List.length a = List.length b ->
    snd (fst (accumulate a b d x y))
    = fold_left (fun acc v => add acc (square v)) a x /\
    snd (accumulate a b d x y)
    = fold_left (fun acc v => add acc (square v)) b y.
Proof.
  induction a as [|u a IH]; intros [|v b] d x y Hlen;
    simpl in *; try discriminate; auto.
Qed.

Lemma cosineSimilarity_zero_norm (a b : list num) :
  List.length a = List.length b ->
  strict_eq (norm a) zero = true \/ strict_eq (norm b) zero = true ->
  cosineSimilarity a b = Normal zero.
Proof.
  intros Hlen Hz. unfold cosineSimilarity.
  rewrite Hlen, Nat.eqb_refl; simpl.
  destruct (accumulate_norms a b zero zero zero Hlen) as [Hx Hy].
  destruct (accumulate a b zero zero zero) as [[d x] y];
    simpl in Hx, Hy; subst x y.
  fold (norm a) (norm b).
  destruct Hz as [-> | ->]; simpl; [reflexivity|].
  rewrite orb_true_r; reflexivity.
Qed.

(** *** Search *)

Lemma score_same_length (s : t num) q i emb :
  List.length emb = List.length q ->
  score s q i emb
  = Normal (mkResult i (cosine q emb) (nth_error (documents s) i)
                     (nth_error (metadata s) i)).
Proof.
  intros Hlen. unfold score.
  rewrite cosineSimilarity_same_length by auto. reflexivity.
Qed.

Lemma score_throws_only (s : t num) q i emb e :
  score s q i emb = Throw e -> e = DimensionMismatch.
Proof.
  unfold score.
  destruct (cosineSimilarity q emb) eqn:E; simpl; [discriminate|].
  intros E'; inversion E'; subst.
  eapply cosineSimilarity_throws_only; eassumption.
Qed.

Lemma scoredEntries_document (s : t num) q r :
  List.length (embeddings s) = List.length (documents s) ->
  In r (scoredEntries s q) -> document r <> None.
Proof.
  intros Hlen Hin. apply pure_mapi_from_In in Hin.
  destruct Hin as (k & emb & Hk & ->); simpl.
  apply nth_error_Some. rewrite <- Hlen.
  apply nth_error_Some. congruence.
Qed.

(** The logging loop runs through when every result has its document. *)
Lemma forEach_logResult (l : list (SearchResult num)) :
  (forall r, In r l -> document r <> None) ->
  forEach logResult l = Normal tt.
Proof.
  induction l as [|r l IH]; intros Hdoc; simpl; [reflexivity|].
  unfold logResult at 1.
  destruct (document r) eqn:Er.
  - simpl. apply IH. intros r' Hr'. apply Hdoc. right; assumption.
  - exfalso. apply (Hdoc r); [left; reflexivity | assumption].
Qed.

Lemma forEach_logResult_normal (l : list (SearchResult num)) u :
  forEach logResult l = Normal u ->
  forall r, In r l -> document r <> None.
Proof.
  induction l as [|x l IH]; simpl; [intros _ r []|].
  unfold logResult at 1.
  destruct (document x) eqn:Ex; simpl; [|discriminate].
  intros Hl r [<-|Hr]; [congruence | auto].
Qed.

(** It throws nothing but the TypeError of an undefined document. *)
Lemma forEach_logResult_throws_only (l : list (SearchResult num)) e :
  forEach logResult l = Throw e -> e = UndefinedDocument.
Proof.
  induction l as [|r l IH]; simpl; [discriminate|].
  unfold logResult at 1.
  destruct (document r); simpl; [exact IH|].
  intros E; inversion E; reflexivity.
Qed.

(** On a store with a document for every embedding and with matching
    dimensions, [search] is: score every entry, sort, keep the first
    [topK]. *)
Lemma search_matching (s : t num) q topK :
  List.length (embeddings s) = List.length (documents s) ->
  Forall (fun emb => List.length emb = List.length q) (embeddings s) ->
  search s q topK
  = Normal (array_slice0 (sort bySimilarity (scoredEntries s q)) topK).
Proof.
  intros Hlen Hdim.
  assert (Hlog :
            forEach logResult
              (array_slice0 (sort bySimilarity (scoredEntries s q)) topK)
            = Normal tt).
  { apply forEach_logResult. intros r Hr.
    apply array_slice0_In in Hr.
    apply (sort_In bySimilarity r (scoredEntries s q)) in Hr.
    eapply scoredEntries_document; eassumption. }
  revert Hlog. unfold search, scoredEntries, pure_mapi, mapi.
  destruct (embeddings s) as [|e0 es] eqn:Ee.
  { intros _. simpl. unfold array_slice0. rewrite firstn_nil.
    reflexivity. }
  intros Hlog. cbn [List.length Nat.eqb].
  rewrite (@mapi_from_normal _ _ (score s q)
             (fun i emb => mkResult i (cosine q emb)
                             (nth_error (documents s) i)
                             (nth_error (metadata s) i))).
  - cbn [bind]. cbv zeta. rewrite Hlog. reflexivity.
  - intros j x Hin. apply score_same_length.
    rewrite Forall_forall in Hdim. auto.
Qed.

(** A search that returns has found a document for every result, on
    any store: the logging loop has read them all. *)
Lemma search_normal_documents (s : t num) q topK results :
  search s q topK = Normal results ->
  forall r, In r results -> document r <> None.
Proof.
  unfold search.
  destruct (List.length (embeddings s) =? 0)%nat.
  { intros E; inversion E; subst. intros r []. }
  destruct (mapi (score s q) (embeddings s)) as [scored|e];
    simpl; [|discriminate].
  destruct (forEach logResult
              (array_slice0 (sort bySimilarity scored) topK))
    as [u|e] eqn:El; simpl; [|discriminate].
  intros E; inversion E; subst; clear E.
  eapply forEach_logResult_normal; eassumption.
Qed.

(** On a store that holds an embedding without a document, the logging
    loop reads [undefined.substring], and [search] throws. *)
Lemma search_undefined_document (emb : list num) :
  search (mk [] [emb] []) emb 3 = Throw UndefinedDocument.
Proof.
  unfold search, mapi. cbn [embeddings List.length Nat.eqb mapi_from].
  rewrite score_same_length by reflexivity. reflexivity.
Qed.

Lemma scoredEntries_length (s : t num) q :
  List.length (scoredEntries s q) = List.length (embeddings s).
Proof. apply pure_mapi_from_length. Qed.

Lemma scoredEntries_similarity (s : t num) q r :
  In r (scoredEntries s q) ->
  In (similarity r) (map (cosine q) (embeddings s)).
Proof.
  intros Hin. apply pure_mapi_from_In in Hin.
  destruct Hin as (k & emb & Hk & ->); simpl.
  apply in_map. eapply nth_error_In; eassumption.
Qed.

(** *** Ordering *)

Lemma comparable_spec (l : list num) :
  comparable l = true ->
  forall x y z, In x l -> In y l -> In z l ->
    gt (sub y x) zero = lt x y /\
    (lt x y = true -> lt y x = false) /\
    (lt x y = false -> lt y z = false -> lt x z = false).
Proof.
  unfold comparable. rewrite forallb_forall. intros Hc x y z Hx Hy Hz.
  specialize (Hc x Hx). rewrite forallb_forall in Hc.
  specialize (Hc y Hy). rewrite forallb_forall in Hc.
  specialize (Hc z Hz). unfold ordered3 in Hc.
  apply andb_prop in Hc. destruct Hc as [Hc H3].
  apply andb_prop in Hc. destruct Hc as [H1 H2].
  apply Bool.eqb_prop in H1.
  repeat split; auto.
  - intros E; rewrite E in H2; simpl in H2.
    apply negb_true_iff; assumption.
  - intros E1 E2; rewrite E1, E2 in H3; simpl in H3.
    apply negb_true_iff; assumption.
Qed.

Lemma sort_insert_nonIncreasing (sims : list num) x l :
  comparable sims = true ->
  (forall r, In r (x :: l) -> In (similarity r) sims) ->
  nonIncreasing l ->
  nonIncreasing (sort_insert bySimilarity x l).
Proof.
  intros Hc Hin Hs. unfold nonIncreasing in *.
  induction Hs as [|y t Hs IH Hall]; simpl.
  - repeat constructor.
  - assert (Hx : In (similarity x) sims) by (apply Hin; left; auto).
    assert (Hy : In (similarity y) sims)
      by (apply Hin; right; left; auto).
    destruct (comparable_spec _ Hc _ _ _ Hx Hy Hy) as (H1 & H2 & _).
    unfold bySimilarity at 1. rewrite H1.
    destruct (lt (similarity x) (similarity y)) eqn:Exy.
    + constructor.
      * apply IH. intros r [->|Hr]; apply Hin; simpl; auto.
      * rewrite Forall_forall in *. intros z Hz.
        apply (Permutation_in _ (sort_insert_perm bySimilarity x t))
          in Hz.
        destruct Hz as [<-|Hz]; [apply H2; reflexivity | auto].
    + constructor; [constructor; assumption|].
      constructor; [exact Exy|].
      rewrite Forall_forall in *. intros z Hz.
      assert (Hz' : In (similarity z) sims)
        by (apply Hin; right; right; auto).
      destruct (comparable_spec _ Hc _ _ _ Hx Hy Hz') as (_ & _ & H3).
      apply H3; [exact Exy | apply Hall; assumption].
Qed.

Lemma sort_nonIncreasing (sims : list num) l :
  comparable sims = true ->
  (forall r, In r l -> In (similarity r) sims) ->
  nonIncreasing (sort bySimilarity l).
Proof.
  intros Hc. induction l as [|x t IH]; intros Hin; simpl.
  - constructor.
  - apply sort_insert_nonIncreasing with (sims := sims); auto.
    + intros r [->|Hr]; [apply Hin; left; auto|].
      apply Hin; right. apply (sort_In bySimilarity r t); assumption.
    + apply IH. intros r Hr; apply Hin; right; assumption.
Qed.

End WithNumbers.
End VectorStoreFacts.

(** ** The cosine in binary64 *)

Module FloatFacts.
Import JS SimpleVectorStore Spec.

(** [x === 0] holds of the two zeros only. *)
Lemma strict_eq_zero_cases (x : float) :
  strict_eq x zero = true -> x = 0%float \/ x = (-0)%float.
Proof.
  simpl. intros E. rewrite FloatAxioms.eqb_spec in E.
  rewrite <- (SF2Prim_Prim2SF x).
  change (Prim2SF 0) with (S754_zero false) in E.
  destruct (Prim2SF x) as [[|]|s| |s m e].
  - right. reflexivity.
  - left. reflexivity.
  - destruct s; discriminate.
  - discriminate.
  - destruct s; discriminate.
Qed.

Lemma square_of_zero (x : float) :
  strict_eq x zero = true -> square x = 0%float.
Proof.
  intros E. destruct (strict_eq_zero_cases E) as [-> | ->]; reflexivity.
Qed.

(** The squares of a zero vector sum to [+0], exactly. *)
Lemma zeroVector_squares (v : list float) :
  zeroVector v ->
  fold_left (fun acc x => add acc (square x)) v 0%float = 0%float.
Proof.
  induction 1 as [|x v Hx _ IH]; cbn [fold_left]; [reflexivity|].
  rewrite (square_of_zero Hx). exact IH.
Qed.

Lemma zeroVector_norm (v : list float) :
  zeroVector v -> strict_eq (norm v) zero = true.
Proof.
  intros Hv. unfold norm.
  change (@zero float float_Number) with 0%float.
  rewrite (zeroVector_squares Hv). reflexivity.
Qed.

(** Squares that overflow: both sums of squares are [Infinity], and
    [Infinity / (Infinity * Infinity)] is NaN. *)
Lemma cosineSimilarity_overflow_is_NaN :
  exists r : float,
    cosineSimilarity [0x1p+600]%float [0x1p+600]%float = Normal r /\
    PrimFloat.is_nan r = true.
Proof. eexists. split; vm_compute; reflexivity. Qed.

(** Squares that land among the subnormal numbers: with [u = 2^-1074]
    the smallest of them, the squares [1.485 u] and [4.48 u] round to
    [u] and [4 u], the product [2.58 u] rounds to [3 u], and the
    similarity is [3 u / (sqrt u * sqrt (4 u)) = 1.5]. *)
Lemma cosineSimilarity_underflow_is_one_and_a_half :
  cosineSimilarity [0x1.38p-537]%float [0x1.0Fp-536]%float
  = Normal 1.5%float.
Proof. vm_compute. reflexivity. Qed.

End FloatFacts.

(** ** Claims about the vector store *)

Module VectorStoreClaims.
Import JS JSFacts SimpleVectorStore Spec VectorStoreFacts.
Local Open Scope string_scope.

Section WithNumbers.
Context {num : Type} `{Number num}.

(** C10.  Every operation of [SimpleVectorStore] ([addDocument],
    [search], [getAllDocuments], [getDocumentCount], [clear]) keeps
    the three arrays equally long with [metadata[i].id = i]; hence
    [getDocumentCount()] is the number of stored entries, and every
    entry has its embedding and a metadata object whose [id] is its
    position. *)
Theorem store_operations_preserve_consistency
        (s : t num) (op : Operation num) :
  consistent s ->
  consistent (apply s op) /\
  getDocumentCount (apply s op)
  = Z.of_nat (List.length (getAllDocuments (apply s op))) /\
  forall i e,
    nth_error (getAllDocuments (apply s op)) i = Some e ->
    exists emb m,
      embedding e = Some emb /\ entryMetadata e = Some m /\
      get "id" m = Some (VNumber (Z.of_nat i)).
Proof.
  intros Hs. pose proof (consistent_apply op Hs) as Hc.
  split; [exact Hc|]. split.
  - unfold getDocumentCount. rewrite getAllDocuments_length. reflexivity.
  - intros i e Hi.
    assert (Hlt : (i < List.length (documents (apply s op)))%nat).
    { rewrite <- getAllDocuments_length. apply nth_error_Some.
      congruence. }
    destruct (getAllDocuments_entry _ _ Hi) as (_ & _ & He & Hm).
    destruct Hc as (Hle & Hlm & Hid).
    destruct (nth_error (embeddings (apply s op)) i) as [emb|] eqn:Eemb.
    2:{ apply nth_error_None in Eemb. lia. }
    destruct (nth_error (metadata (apply s op)) i) as [m|] eqn:Emeta.
    2:{ apply nth_error_None in Emeta. lia. }
    exists emb, m. repeat split; auto.
Qed.

(** C3.  When some stored embedding has a length other than the
    query's (so the store is not empty), [search] throws the
    dimension-mismatch error; it returns no result list at all. *)
Theorem search_rejects_dimension_mismatch
        (s : t num) (queryEmbedding : list num) (topK : Z) :
  (exists emb, In emb (embeddings s) /\
               List.length emb <> List.length queryEmbedding) ->
  search s queryEmbedding topK = Throw DimensionMismatch.
Proof.
  intros (emb & Hin & Hlen). unfold search, mapi.
  destruct (embeddings s) as [|e0 es] eqn:Ee; [destruct Hin|].
  cbn [List.length Nat.eqb].
  rewrite (@mapi_from_throw _ _ (score s queryEmbedding)
             DimensionMismatch).
  - reflexivity.
  - intros i x e. apply score_throws_only.
  - exists emb; split; [assumption|].
    intros j. unfold score.
    rewrite cosineSimilarity_mismatch by congruence. reflexivity.
Qed.

(** C2, amended.  For a consistent store, a query of the dimension of
    every stored embedding, similarities that [<] orders (none is
    NaN) and [topK >= 0], [search] returns [min(topK, count())]
    results in non-increasing similarity order, each of them an entry
    of the store with its similarity; with [topK >= count()] these
    are all the entries; fewer than [topK] results come back only
    from a store of fewer than [topK] entries, and none from an empty
    store. *)
Theorem search_returns_top_results
        (s : t num) (queryEmbedding : list num) (topK : Z) :
  consistent s ->
  (0 <= topK)%Z ->
  Forall (fun emb => List.length emb = List.length queryEmbedding)
         (embeddings s) ->
  comparable (map (cosine queryEmbedding) (embeddings s)) = true ->
  exists results,
    search s queryEmbedding topK = Normal results /\
    Z.of_nat (List.length results)
    = Z.min topK (getDocumentCount s) /\
    nonIncreasing results /\
    incl results (scoredEntries s queryEmbedding) /\
    ((getDocumentCount s <= topK)%Z ->
     Permutation results (scoredEntries s queryEmbedding)) /\
    ((Z.of_nat (List.length results) < topK)%Z ->
     (getDocumentCount s < topK)%Z) /\
    (getDocumentCount s = 0%Z -> results = []).
Proof.
  intros (Hle & _ & _) Hk Hdim Hcmp.
  set (sorted := sort bySimilarity (scoredEntries s queryEmbedding)).
  assert (Hlen : List.length sorted = List.length (documents s)).
  { unfold sorted. rewrite sort_length, scoredEntries_length. exact Hle. }
  assert (Hcount :
            Z.of_nat (List.length (array_slice0 sorted topK))
            = Z.min topK (getDocumentCount s)).
  { rewrite array_slice0_length by assumption.
    unfold getDocumentCount. rewrite Hlen. reflexivity. }
  exists (array_slice0 sorted topK).
  split; [apply search_matching; assumption|].
  split; [exact Hcount|].
  split.
  { apply firstn_StronglySorted.
    apply sort_nonIncreasing
      with (sims := map (cosine queryEmbedding) (embeddings s)); auto.
    intros r. apply scoredEntries_similarity. }
  split.
  { intros r Hr. apply array_slice0_In in Hr.
    apply (sort_In bySimilarity r (scoredEntries s queryEmbedding)).
    exact Hr. }
  split.
  { intros Hall. rewrite array_slice0_all.
    - apply sort_perm.
    - rewrite Hlen. exact Hall. }
  split.
  { rewrite Hcount. lia. }
  intros Hempty. unfold getDocumentCount in Hempty.
  destruct sorted as [|r rest]; [|simpl in Hlen; lia].
  unfold array_slice0. apply firstn_nil.
Qed.

End WithNumbers.

(** C4, amended.  In binary64, for vectors of one length,
    [cosineSimilarity] throws nothing and returns a number, and that
    number is exactly [0], neither NaN nor an error, whenever the norm of
    either vector is zero: whenever the norm that the code computes for
    [a] or for [b] is [0] (squares that underflow included), and in
    particular whenever every coordinate of [a] or of [b] is [0] or
    [-0], whatever the other vector holds.  (No range is stated: the
    quotient is not clamped.) *)
Theorem cosineSimilarity_zero_norm_is_zero (a b : list float) :
  List.length a = List.length b ->
  (exists r, cosineSimilarity a b = Normal r) /\
  (strict_eq (norm a) zero = true \/ strict_eq (norm b) zero = true ->
   cosineSimilarity a b = Normal 0%float) /\
  (zeroVector a \/ zeroVector b ->
   cosineSimilarity a b = Normal 0%float).
Proof.
  intros Hlen. split.
  - exists (cosine a b). apply cosineSimilarity_same_length. exact Hlen.
  - change 0%float with (@zero float float_Number). split.
    + apply (cosineSimilarity_zero_norm a b Hlen).
    + intros [Hz|Hz]; apply (cosineSimilarity_zero_norm a b Hlen);
        [left | right]; apply FloatFacts.zeroVector_norm; exact Hz.
Qed.

(** C4 fails in the arithmetic of the program: the similarity of
    [[1, 1, 1]] with itself is [3 / (sqrt 3 * sqrt 3)], and binary64
    rounds it to [1 + 2^-52], printed [1.0000000000000002]. *)
Lemma cosineSimilarity_exceeds_one :
  exists r : float,
    cosineSimilarity [1; 1; 1]%float [1; 1; 1]%float = Normal r /\
    r = 0x1.0000000000001p+0%float /\
    lt 1%float r = true.
Proof.
  eexists. split; [vm_compute; reflexivity|].
  split; [reflexivity | vm_compute; reflexivity].
Qed.

(** C4, amended, on the zero vector [[0, -0]] against [[3, NaN]], and
    on [[2^-600]], whose square underflows to [0], against [[1]]. *)
Lemma cosineSimilarity_zero_norm_is_zero_witness :
  cosineSimilarity [0; -0]%float [3; nan]%float = Normal 0%float /\
  cosineSimilarity [0x1p-600]%float [1]%float = Normal 0%float.
Proof.
  split.
  - destruct (@cosineSimilarity_zero_norm_is_zero
                [0; -0]%float [3; nan]%float eq_refl) as (_ & _ & Hz).
    apply Hz. left. repeat constructor.
  - destruct (@cosineSimilarity_zero_norm_is_zero
                [0x1p-600]%float [1]%float eq_refl) as (_ & Hz & _).
    apply Hz. left. vm_compute. reflexivity.
Defined.

(** C10 on [threeChunks] and the insertion of a fourth chunk. *)
Lemma store_operations_preserve_consistency_witness :
  consistent Examples.threeChunks /\
  consistent
    (apply Examples.threeChunks
           (OpAddDocument "delta" [0.5; 0.5]%float [] "t3")) /\
  getDocumentCount
    (apply Examples.threeChunks
           (OpAddDocument "delta" [0.5; 0.5]%float [] "t3")) = 4%Z.
Proof.
  split; [apply consistent_run|].
  destruct (store_operations_preserve_consistency
              (s := Examples.threeChunks)
              (OpAddDocument "delta" [0.5; 0.5]%float [] "t3")
              (consistent_run _)) as (Hc & Hn & _).
  split; [exact Hc | rewrite Hn; reflexivity].
Defined.

(** C3 on [threeChunks] and a query of three coordinates. *)
Lemma search_rejects_dimension_mismatch_witness :
  In [0; 1]%float (embeddings Examples.threeChunks) /\
  List.length [0; 1]%float <> List.length [1; 2; 3]%float /\
  search Examples.threeChunks [1; 2; 3]%float 3 = Throw DimensionMismatch.
Proof.
  split; [right; left; reflexivity|].
  split; [discriminate|].
  apply (@search_rejects_dimension_mismatch float _
           Examples.threeChunks [1; 2; 3]%float 3%Z).
  exists [0; 1]%float. split; [right; left; reflexivity | discriminate].
Defined.

(** C2 fails for a negative [topK]: [slice(0, -1)] drops the last
    element, so a store of three entries answers with two results. *)
Lemma search_negative_topK_drops_the_last :
  exists results,
    search Examples.threeChunks Examples.query (-1) = Normal results /\
    List.length results = 2%nat /\
    Z.of_nat (List.length results)
    <> Z.min (-1) (getDocumentCount Examples.threeChunks).
Proof.
  eexists. split; [vm_compute; reflexivity|].
  split; [reflexivity | vm_compute; discriminate].
Qed.

(** C2, amended, on [threeChunks], [query] and [topK = 2]. *)
Lemma search_returns_top_results_witness :
  exists results,
    search Examples.threeChunks Examples.query 2 = Normal results /\
    Z.of_nat (List.length results)
    = Z.min 2 (getDocumentCount Examples.threeChunks) /\
    nonIncreasing results.
Proof.
  destruct (@search_returns_top_results float _
              Examples.threeChunks Examples.query 2%Z)
    as (results & Hs & Hn & Hsorted & _).
  - apply consistent_run.
  - lia.
  - repeat constructor.
  - vm_compute. reflexivity.
  - exists results. auto.
Defined.

End VectorStoreClaims.

(** ** documents.js *)

Module ChunkingFacts.
Import JS DocumentProcessor Spec Examples.
Local Open Scope string_scope.
Local Open Scope Z_scope.

(** *** Trimming *)

Lemma trimEnd_idempotent s : trimEnd (trimEnd s) = trimEnd s.
Proof.
  induction s as [|c t IH]; simpl; [reflexivity|].
  destruct (isWhiteSpace c && isEmpty (trimEnd t)) eqn:E; simpl.
  - reflexivity.
  - rewrite IH, E. reflexivity.
Qed.

Lemma trimStart_head s :
  trimStart s = EmptyString \/
  exists c t, trimStart s = String c t /\ isWhiteSpace c = false.
Proof.
  induction s as [|c t IH]; simpl; [left; reflexivity|].
  destruct (isWhiteSpace c) eqn:E; [exact IH|].
  right; exists c, t; auto.
Qed.

Lemma trim_idempotent s : trim (trim s) = trim s.
Proof.
  unfold trim. destruct (trimStart_head s) as [-> | (c & t & -> & Hc)].
  - reflexivity.
  - simpl. rewrite Hc; simpl. rewrite Hc; simpl.
    rewrite Hc; simpl. rewrite trimEnd_idempotent. reflexivity.
Qed.

Lemma len_positive_not_empty s : (0 <? len s) = true -> s <> EmptyString.
Proof. intros H ->. discriminate. Qed.

(** *** The chunks of the loop *)

Lemma chunkLoop_chunks_not_blank dp text :
  forall fuel chunks start result,
    Forall (fun c => ~ blank c) chunks ->
    chunkLoop fuel dp text chunks start = Some result ->
    Forall (fun c => ~ blank c) result.
Proof.
  induction fuel as [|fuel IH]; intros chunks start result Hc; simpl.
  - discriminate.
  - destruct (start <? len text); [|intros E; inversion E; subst; exact Hc].
    apply IH.
    destruct (0 <? len (trim (slice text start (chunkEnd dp text start))))
      eqn:E; [|exact Hc].
    unfold push. apply Forall_app; split; [exact Hc|].
    constructor; [|constructor].
    unfold blank. rewrite trim_idempotent.
    apply len_positive_not_empty; exact E.
Qed.

(** *** Progress of the cursor *)

(** Case analysis on the first comparison [a <? b] of the goal. *)
Ltac case_ltb :=
  match goal with
  | |- context [(?a <? ?b)%Z] => destruct (Z.ltb_spec a b)
  end.

(** When the overlap is at most half of the chunk size, every turn of the
    loop moves [start] forward, wherever the boundary search cuts. *)
Lemma chunkEnd_advances dp text start :
  1 <= chunkSize dp ->
  2 * chunkOverlap dp <= chunkSize dp ->
  start + 1 <= chunkEnd dp text start - chunkOverlap dp.
Proof.
  intros Hsize Hhalf. unfold chunkEnd.
  destruct (start + chunkSize dp <? len text); [|lia].
  repeat case_ltb; lia.
Qed.

Lemma chunkLoop_terminates dp text :
  1 <= chunkSize dp ->
  2 * chunkOverlap dp <= chunkSize dp ->
  forall fuel chunks start,
    (Z.to_nat (len text - start) < fuel)%nat ->
    exists result, chunkLoop fuel dp text chunks start = Some result.
Proof.
  intros Hsize Hhalf.
  induction fuel as [|fuel IH]; intros chunks start Hfuel; [lia|].
  simpl. destruct (Z.ltb_spec start (len text)) as [Hlt|Hge].
  - apply IH.
    pose proof (chunkEnd_advances dp text start Hsize Hhalf). lia.
  - eauto.
Qed.

Lemma chunkLoop_more_fuel dp text :
  forall fuel fuel' chunks start result,
    chunkLoop fuel dp text chunks start = Some result ->
    (fuel <= fuel')%nat ->
    chunkLoop fuel' dp text chunks start = Some result.
Proof.
  induction fuel as [|fuel IH]; intros fuel' chunks start result;
    simpl; [discriminate|].
  intros Hrun Hle. destruct fuel' as [|fuel']; [lia|]. simpl.
  destruct (start <? len text); [|exact Hrun].
  eapply IH; [exact Hrun | lia].
Qed.

(** *** A loop that never ends *)

(** With the settings [looping] the boundary search cuts [loopingText]
    at 8, and [start] is back at 0. *)
Lemma looping_turn fuel chunks :
  chunkLoop (S fuel) looping loopingText chunks 0
  = chunkLoop fuel looping loopingText (push chunks "aaaaaaa.") 0.
Proof. reflexivity. Qed.

Lemma looping_forever fuel :
  forall chunks, chunkLoop fuel looping loopingText chunks 0 = None.
Proof.
  induction fuel as [|fuel IH]; intros chunks; [reflexivity|].
  rewrite looping_turn. apply IH.
Qed.

(** The same loop is reached through the configuration call of the
    application: after [setChunkSize(60)] the default overlap of 50 is
    below the chunk size, the boundary search cuts [longSentence] at 50,
    and [start] is back at 0. *)
Lemma longSentence_turn fuel chunks :
  chunkLoop (S fuel) (DocumentProcessor.mk 60 50) longSentence chunks 0
  = chunkLoop fuel (DocumentProcessor.mk 60 50) longSentence
              (push chunks (substring 0 50 longSentence)) 0.
Proof. reflexivity. Qed.

Lemma longSentence_forever fuel :
  forall chunks,
    chunkLoop fuel (DocumentProcessor.mk 60 50) longSentence chunks 0 = None.
Proof.
  induction fuel as [|fuel IH]; intros chunks; [reflexivity|].
  rewrite longSentence_turn. apply IH.
Qed.

Lemma setChunkSize_60_addDocument_diverges
      (hf : InferenceClient.Service float) (fuel : nat) :
  RAGSystem.addDocument hf
    (oneFile longSentence) (oneFile longSentence) (oneFile longSentence)
    "t" (fun _ => "t") fuel
    (RAGSystem.setChunkSize RAGSystem.new 60) "notes.txt" "txt"
  = None.
Proof.
  unfold RAGSystem.addDocument, processDocument.
  replace (extract (oneFile longSentence) (oneFile longSentence)
                   (oneFile longSentence) "notes.txt" "txt")
    with (Normal longSentence) by reflexivity.
  replace (cleanText longSentence) with longSentence by reflexivity.
  unfold chunkText.
  replace (len longSentence <=? chunkSize _) with false by reflexivity.
  cbn [RAGSystem.documentProcessor RAGSystem.setChunkSize RAGSystem.new
       DocumentProcessor.new chunkOverlap].
  rewrite longSentence_forever. reflexivity.
Qed.

End ChunkingFacts.

Module ChunkingClaims.
Import JS DocumentProcessor Spec Examples ChunkingFacts.
Local Open Scope string_scope.
Local Open Scope Z_scope.

(** C6, amended.  For every text and every configuration whose chunk size
    is positive and whose overlap is at most half of it, [chunkText]
    terminates: the cursor advances on every turn, and a fuel above the
    length of the text is enough for the loop to return its chunks. *)
Theorem chunkText_terminates (dp : DocumentProcessor.t) (text : string) :
  1 <= chunkSize dp ->
  2 * chunkOverlap dp <= chunkSize dp ->
  (forall start,
      start < chunkEnd dp text start - chunkOverlap dp) /\
  exists chunks,
    forall fuel, (String.length text < fuel)%nat ->
                 chunkText fuel dp text = Some chunks.
Proof.
  intros Hsize Hhalf. split.
  { intros start.
    pose proof (chunkEnd_advances dp text start Hsize Hhalf). lia. }
  unfold chunkText. destruct (len text <=? chunkSize dp).
  - exists [trim text]. reflexivity.
  - destruct (@chunkLoop_terminates dp text Hsize Hhalf
                (S (String.length text)) [] 0) as [chunks Hrun].
    { unfold len. lia. }
    exists chunks. intros fuel Hfuel.
    eapply chunkLoop_more_fuel; [exact Hrun | lia].
Qed.

(** C6, amended, on [loopingText] with [chunkSize = 10] and
    [chunkOverlap = 5]. *)
Lemma chunkText_terminates_witness :
  1 <= chunkSize halfOverlap /\
  2 * chunkOverlap halfOverlap <= chunkSize halfOverlap /\
  exists chunks,
    forall fuel, (String.length loopingText < fuel)%nat ->
                 chunkText fuel halfOverlap loopingText = Some chunks.
Proof.
  split; [simpl; lia|]. split; [simpl; lia|].
  apply (@chunkText_terminates halfOverlap loopingText); simpl; lia.
Defined.

(** C6 fails as stated: with [overlap = 8 < chunkSize = 10] the loop
    never ends on [loopingText], whatever fuel it is given. *)
Lemma chunkText_diverges_below_chunkSize :
  chunkOverlap looping < chunkSize looping /\
  forall fuel, chunkText fuel looping loopingText = None.
Proof.
  split; [reflexivity|].
  intros fuel. unfold chunkText.
  replace (len loopingText <=? chunkSize looping) with false by reflexivity.
  apply looping_forever.
Qed.

(** C7, at its failing input.  On an empty text, which is not longer than
    the chunk size, [chunkText] returns one chunk, and that chunk is
    empty; the loop of the long-text branch would have skipped it. *)
Theorem chunkText_short_text_keeps_empty_chunk (fuel : nat) :
  chunkText fuel DocumentProcessor.new "" = Some [""] /\
  Exists blank [""].
Proof.
  split; [reflexivity|].
  constructor. reflexivity.
Qed.

(** The long-text branch does skip empty chunks: none of the chunks it
    returns is empty after trimming. *)
Lemma chunkText_long_text_chunks_not_blank fuel dp text chunks :
  chunkSize dp < len text ->
  chunkText fuel dp text = Some chunks ->
  Forall (fun c => ~ blank c) chunks.
Proof.
  intros Hlong. unfold chunkText.
  destruct (Z.leb_spec (len text) (chunkSize dp)); [lia|].
  apply chunkLoop_chunks_not_blank. constructor.
Qed.

(** The chunks of [loopingText] with [chunkSize = 10] and
    [chunkOverlap = 5]. *)
Lemma chunkText_long_text_chunks_not_blank_witness :
  chunkSize halfOverlap < len loopingText /\
  exists chunks,
    chunkText 30 halfOverlap loopingText = Some chunks /\
    Forall (fun c => ~ blank c) chunks.
Proof.
  split; [reflexivity|].
  eexists. split; [vm_compute; reflexivity|].
  apply (@chunkText_long_text_chunks_not_blank 30 halfOverlap loopingText);
    reflexivity.
Defined.

End ChunkingClaims.

(** ** generation.js *)

Module TextGeneratorFacts.
Import JS TextGenerator.
Local Open Scope string_scope.

Lemma length_append (a b : string) :
  String.length (a ++ b) = (String.length a + String.length b)%nat.
Proof. induction a as [|c a IH]; simpl; auto. Qed.

Lemma longer_not_empty (a b : string) :
  (String.length a < String.length b)%nat -> b <> "".
Proof. intros Hlt ->. simpl in Hlt. lia. Qed.

Section WithRegExps.
Variable namePatterns datePatterns : list (RegExp string).
Variable numberPattern : RegExp (string * string * string).
Variable locationPatterns : list (RegExp (string * option string)).

(** Numbering the extracted lines only appends to the heading. *)
Lemma numbered_length (lines : list string) :
  forall answer,
    (String.length answer
     <= String.length
          (fold_left (fun answer line => answer ++ line) lines answer))%nat.
Proof.
  induction lines as [|l lines IH]; intros answer; simpl; [lia|].
  etransitivity; [|apply IH]. rewrite length_append. lia.
Qed.

Lemma createFallbackAnswer_not_empty question context :
  createFallbackAnswer namePatterns datePatterns numberPattern
                       locationPatterns question context <> "".
Proof.
  unfold createFallbackAnswer.
  destruct (0 <? List.length _)%nat.
  - unfold numbered.
    apply longer_not_empty with (a := "").
    eapply Nat.lt_le_trans; [|apply numbered_length]. simpl. lia.
  - destruct (0 <? List.length _)%nat.
    + apply longer_not_empty with (a := "").
      rewrite length_append. simpl. lia.
    + discriminate.
Qed.

Lemma createFallbackAnswer_worst_case question context :
  extractRelevantInfo namePatterns datePatterns numberPattern
                      locationPatterns question context = [] ->
  keywordSentences question context = [] ->
  createFallbackAnswer namePatterns datePatterns numberPattern
                       locationPatterns question context = apology.
Proof.
  intros Hinfo Hsent. unfold createFallbackAnswer.
  rewrite Hinfo, Hsent. reflexivity.
Qed.

End WithRegExps.
End TextGeneratorFacts.

(** ** embedding.js and retrieval.js *)

Module RetrievalFacts.
Import JS JSFacts InferenceClient.
Local Open Scope string_scope.

Lemma mapi_from_total A B (f : nat -> A -> completion B) l :
  (forall j x, In x l -> exists y, f j x = Normal y) ->
  forall i, exists ys, mapi_from f i l = Normal ys.
Proof.
  induction l as [|x t IH]; intros Hf i; simpl; [eauto|].
  destruct (Hf i x) as [y Hy]; [left; reflexivity|].
  destruct (IH (fun j z Hz => Hf j z (or_intror Hz)) (S i)) as [ys Hys].
  rewrite Hy, Hys; simpl. eauto.
Qed.

Lemma mapi_from_In A B (f : nat -> A -> completion B) l :
  forall i ys y, mapi_from f i l = Normal ys -> In y ys ->
                 exists k x, nth_error l k = Some x /\
                             f (i + k)%nat x = Normal y.
Proof.
  induction l as [|x t IH]; intros i ys y; simpl.
  - intros E; inversion E; subst. intros [].
  - destruct (f i x) as [z|e] eqn:Ez; simpl; [|discriminate].
    destruct (mapi_from f (S i) t) as [zs|e] eqn:Et; simpl; [|discriminate].
    intros E; inversion E; subst. intros [<-|Hin].
    + exists 0%nat, x. rewrite Nat.add_0_r. auto.
    + eapply IH in Hin; [|exact Et].
      destruct Hin as (k & x' & Hk & Hf).
      exists (S k), x'. rewrite Nat.add_succ_r. auto.
Qed.

Section WithNumbers.
Context {num : Type} `{Number num}.

(** Every result of a search on a consistent store carries its document. *)
Lemma search_results_have_documents
      (s : SimpleVectorStore.t num) q topK results :
  Spec.consistent s ->
  SimpleVectorStore.search s q topK = Normal results ->
  forall r, In r results -> SimpleVectorStore.document r <> None.
Proof.
  intros _. apply VectorStoreFacts.search_normal_documents.
Qed.

Section WithService.
Variable hf : Service num.

(** [generateEmbeddings] sends one request per text, whatever fails. *)
Lemma generateEmbeddings_sent texts :
  forall sent,
    snd (EmbeddingService.generateEmbeddings hf texts sent)
    = (sent ++ map FeatureExtraction texts)%list.
Proof.
  induction texts as [|text rest IH]; intros sent; simpl.
  - rewrite app_nil_r. reflexivity.
  - specialize (IH (push sent (FeatureExtraction text))).
    destruct (EmbeddingService.generateEmbeddings hf rest
                (push sent (FeatureExtraction text))) as [others sent2].
    simpl in *. subst sent2. unfold push.
    rewrite <- app_assoc. reflexivity.
Qed.

(** One rejected request makes [Promise.all] reject. *)
Lemma generateEmbeddings_rejects texts :
  forall sent i text err,
    nth_error texts i = Some text ->
    featureExtraction hf
      (sent ++ map FeatureExtraction (firstn i texts))%list text
    = Throw err ->
    exists e, fst (EmbeddingService.generateEmbeddings hf texts sent)
              = Throw e.
Proof.
  induction texts as [|t rest IH]; intros sent i text err Hnth Hfail.
  - destruct i; discriminate.
  - simpl.
    destruct (EmbeddingService.generateEmbeddings hf rest
                (push sent (FeatureExtraction t))) as [others sent2] eqn:Er.
    destruct i as [|i]; simpl in *.
    + inversion Hnth; subst t. rewrite app_nil_r in Hfail.
      rewrite Hfail. simpl. eauto.
    + destruct (IH (push sent (FeatureExtraction t)) i text err Hnth)
        as [e He].
      { unfold push. rewrite <- app_assoc. exact Hfail. }
      rewrite Er in He. simpl in He. subst others.
      destruct (featureExtraction hf sent t); simpl; eauto.
Qed.

End WithService.
End WithNumbers.

Lemma join_cons (sep x y : string) (t : list string) :
  join sep (x :: y :: t) = x ++ sep ++ join sep (y :: t).
Proof. reflexivity. Qed.

Lemma contextBlocks_cons (n : nat) (c c' : string) (t : list string) :
  Spec.contextBlocks n (c :: c' :: t)
  = Spec.contextBlock n c ++ LF ++ Spec.contextBlocks (S n) (c' :: t).
Proof. reflexivity. Qed.

(** The context is the blocks of the specification, numbered from the
    position of the first result. *)
Lemma createContext_from num
      (results : list (SimpleVectorStore.SearchResult num)) :
  forall texts i,
    map (@SimpleVectorStore.document num) results = map Some texts ->
    join LF
      (pure_mapi_from
         (fun index result =>
            "=== Document Section " ++ ofNat (index + 1) ++ " ===" ++ LF
              ++ RAGSystem.interpolate (SimpleVectorStore.document result)
              ++ LF)
         i results)
    = Spec.contextBlocks (S i) texts.
Proof.
  induction results as [|r rest IH]; intros [|c texts] i Hdocs;
    simpl in Hdocs; try discriminate; [reflexivity|].
  inversion Hdocs as [[Hr Hrest]].
  specialize (IH texts (S i) Hrest).
  destruct rest as [|r' rest']; destruct texts as [|c' texts'];
    simpl in Hrest; try discriminate.
  - simpl. rewrite Hr, Nat.add_1_r. reflexivity.
  - rewrite contextBlocks_cons, <- IH.
    cbn [pure_mapi_from]. rewrite join_cons.
    rewrite Hr, Nat.add_1_r. reflexivity.
Qed.

End RetrievalFacts.

(** ** Claims about the orchestrator *)

Module RetrievalClaims.
Import JS JSFacts InferenceClient RetrievalFacts TextGeneratorFacts.
Local Open Scope string_scope.

Section WithWorld.
Context {num : Type} `{Number num}.
Variable hf : Service num.
Variable toFixed : num -> Z -> string.
Variable readFile pdfText htmlText : string -> completion string.
Variable processedAt : string.
Variable now : nat -> string.
Variable namePatterns datePatterns : list (TextGenerator.RegExp string).
Variable numberPattern : TextGenerator.RegExp (string * string * string).
Variable locationPatterns :
  list (TextGenerator.RegExp (string * option string)).

Local Abbreviation askQuestion :=
  (RAGSystem.askQuestion hf toFixed namePatterns datePatterns numberPattern
                         locationPatterns).
Local Abbreviation addDocument :=
  (RAGSystem.addDocument hf readFile pdfText htmlText processedAt now).
Local Abbreviation createFallbackAnswer :=
  (TextGenerator.createFallbackAnswer namePatterns datePatterns
                                      numberPattern locationPatterns).
Local Abbreviation extractRelevantInfo :=
  (TextGenerator.extractRelevantInfo namePatterns datePatterns
                                     numberPattern locationPatterns).

(** C1.  On the query path -- a consistent, non-empty store, the question
    embedded, a non-empty search result -- a rejected generation request
    still ends in [success: true], and the answer is the one of
    [createFallbackAnswer] on the question and the assembled context.
    That answer is never empty, and when neither the typed extraction nor
    the keyword matching finds anything it is the fixed message that
    suggests rephrasing.  The extractor is a total function of two
    strings, and the generation request is sent once. *)
Theorem askQuestion_survives_generation_failure
        (sys : RAGSystem.t num) (question : string) (topK : Z)
        (questionEmbedding : list num)
        (searchResults : list (SimpleVectorStore.SearchResult num))
        (err : Error) :
  let sent1 := push (RAGSystem.sent sys) (FeatureExtraction question) in
  let context := RAGSystem.createContext searchResults in
  let prompt := TextGenerator.createPrompt question context in
  Spec.consistent (RAGSystem.vectorStore sys) ->
  SimpleVectorStore.getDocumentCount (RAGSystem.vectorStore sys) <> 0%Z ->
  featureExtraction hf (RAGSystem.sent sys) question
  = Normal questionEmbedding ->
  SimpleVectorStore.search (RAGSystem.vectorStore sys) questionEmbedding topK
  = Normal searchResults ->
  searchResults <> [] ->
  textGeneration hf sent1 prompt 300 = Throw err ->
  let (response, sys') := askQuestion sys question topK in
  RAGSystem.success response = true /\
  RAGSystem.answer response = Some (createFallbackAnswer question context) /\
  createFallbackAnswer question context <> "" /\
  (extractRelevantInfo question context = [] ->
   TextGenerator.keywordSentences question context = [] ->
   createFallbackAnswer question context = TextGenerator.apology) /\
  RAGSystem.sent sys' = push sent1 (TextGeneration prompt 300).
Proof.
  intros sent1 context prompt Hcons Hcount Hembed Hsearch Hresults Hgen.
  subst sent1 context prompt.
  unfold RAGSystem.askQuestion.
  apply Z.eqb_neq in Hcount. rewrite Hcount.
  unfold EmbeddingService.generateEmbedding.
  rewrite Hembed, Hsearch.
  assert (Hlen : (List.length searchResults =? 0)%nat = false)
    by (destruct searchResults; [congruence | reflexivity]).
  rewrite Hlen.
  unfold TextGenerator.generateAnswer.
  rewrite Hgen.
  destruct (@mapi_from_total _ _
              (fun _ : nat => RAGSystem.relevantDocument toFixed)
              searchResults) with (i := 0%nat) as [docs Hdocs].
  { intros j r Hr.
    pose proof (search_results_have_documents _ _ Hcons Hsearch r Hr) as Hd.
    unfold RAGSystem.relevantDocument.
    destruct (SimpleVectorStore.document r); [eauto | congruence]. }
  unfold mapi. rewrite Hdocs. simpl.
  repeat split.
  - apply createFallbackAnswer_not_empty.
  - apply createFallbackAnswer_worst_case.
Qed.

(** C5.  On an empty store [askQuestion] answers [success: false] with
    the "No documents" error and a [null] answer, and sends nothing to
    the embedding or the generation service. *)
Theorem askQuestion_empty_store
        (sys : RAGSystem.t num) (question : string) (topK : Z) :
  SimpleVectorStore.getDocumentCount (RAGSystem.vectorStore sys) = 0%Z ->
  let (response, sys') := askQuestion sys question topK in
  RAGSystem.success response = false /\
  RAGSystem.error response = Some RAGSystem.noDocuments /\
  startsWith "No documents" RAGSystem.noDocuments = true /\
  RAGSystem.answer response = None /\
  RAGSystem.sent sys' = RAGSystem.sent sys /\
  sys' = sys.
Proof.
  intros Hempty. unfold RAGSystem.askQuestion.
  rewrite Hempty. simpl. repeat split.
Qed.

(** C8.  For search results that carry their chunk texts, the context
    is exactly the blocks [=== Document Section N ===\n<chunk text>\n],
    numbered from 1 in the order of the results, with one empty line
    between a block and the next.  (This covers every non-empty sequence
    of results; for the empty one both sides are the empty string.) *)
Theorem createContext_blocks
        (searchResults : list (SimpleVectorStore.SearchResult num))
        (chunkTexts : list string) :
  map (@SimpleVectorStore.document num) searchResults
  = map Some chunkTexts ->
  RAGSystem.createContext searchResults = Spec.contextBlocks 1 chunkTexts.
Proof.
  intros Hdocs. unfold RAGSystem.createContext, pure_mapi.
  apply createContext_from. exact Hdocs.
Qed.

(** C9.  When the embedding request of some chunk of the document is
    rejected, [addDocument] answers [success: false] and the store is the
    one from before the call, so its count is unchanged: the requests of
    all chunks are sent and awaited before the first insertion. *)
Theorem addDocument_embedding_failure_inserts_nothing
        (fuel : nat) (sys : RAGSystem.t num) (filePath fileType : string)
        (processedDoc : DocumentProcessor.ProcessedDocument)
        (i : nat) (chunk : string) (err : Error) :
  let chunks := DocumentProcessor.chunks processedDoc in
  DocumentProcessor.processDocument readFile pdfText htmlText processedAt
    fuel (RAGSystem.documentProcessor sys) filePath fileType
  = Some (Normal processedDoc) ->
  nth_error chunks i = Some chunk ->
  featureExtraction hf
    (RAGSystem.sent sys ++ map FeatureExtraction (firstn i chunks))%list
    chunk
  = Throw err ->
  exists response sys',
    addDocument fuel sys filePath fileType = Some (response, sys') /\
    RAGSystem.addSucceeded response = false /\
    RAGSystem.vectorStore sys' = RAGSystem.vectorStore sys /\
    SimpleVectorStore.getDocumentCount (RAGSystem.vectorStore sys')
    = SimpleVectorStore.getDocumentCount (RAGSystem.vectorStore sys) /\
    RAGSystem.sent sys'
    = (RAGSystem.sent sys ++ map FeatureExtraction chunks)%list.
Proof.
  intros chunks Hdoc Hnth Hfail. unfold RAGSystem.addDocument.
  rewrite Hdoc. fold chunks.
  destruct (@generateEmbeddings_rejects num hf chunks (RAGSystem.sent sys)
              i chunk err Hnth Hfail) as [e He].
  pose proof (@generateEmbeddings_sent num hf chunks (RAGSystem.sent sys))
    as Hsent.
  destruct (EmbeddingService.generateEmbeddings hf chunks
              (RAGSystem.sent sys)) as [outcome sent'].
  simpl in He, Hsent. subst outcome sent'.
  eexists _, _. split; [reflexivity|]. simpl. auto.
Qed.

End WithWorld.

(** C1 on [threeChunks] with a generation service that rejects every
    request. *)
Lemma askQuestion_survives_generation_failure_witness :
  let outcome :=
    RAGSystem.askQuestion Examples.generationDown Examples.showFixed
      [] [] Examples.noMatch [] (Examples.system Examples.threeChunks)
      "what is alpha" 2 in
  RAGSystem.success (fst outcome) = true /\
  RAGSystem.answer (fst outcome)
  = Some (TextGenerator.createFallbackAnswer
            [] [] Examples.noMatch [] "what is alpha"
            (RAGSystem.createContext Examples.topTwo)) /\
  List.length (RAGSystem.sent (snd outcome)) = 2%nat.
Proof.
  pose proof (@askQuestion_survives_generation_failure
                float _ Examples.generationDown Examples.showFixed
                [] [] Examples.noMatch []
                (Examples.system Examples.threeChunks) "what is alpha" 2%Z
                Examples.query Examples.topTwo Examples.unavailable) as W.
  cbv zeta in W.
  destruct (RAGSystem.askQuestion Examples.generationDown Examples.showFixed
              [] [] Examples.noMatch []
              (Examples.system Examples.threeChunks) "what is alpha" 2)
    as [response sys'].
  destruct W as (Hs & Ha & _ & _ & Hsent).
  - apply VectorStoreFacts.consistent_run.
  - discriminate.
  - reflexivity.
  - vm_compute. reflexivity.
  - vm_compute. discriminate.
  - reflexivity.
  - simpl. rewrite Hs, Ha, Hsent. repeat split.
Defined.

(** C5 on a fresh system. *)
Lemma askQuestion_empty_store_witness :
  let outcome :=
    RAGSystem.askQuestion Examples.generationDown Examples.showFixed
      [] [] Examples.noMatch [] (Examples.system SimpleVectorStore.new)
      "test" 3 in
  RAGSystem.success (fst outcome) = false /\
  RAGSystem.answer (fst outcome) = None /\
  RAGSystem.sent (snd outcome) = [].
Proof.
  pose proof (@askQuestion_empty_store
                float _ Examples.generationDown Examples.showFixed
                [] [] Examples.noMatch []
                (Examples.system SimpleVectorStore.new) "test" 3%Z) as W.
  cbv zeta.
  destruct (RAGSystem.askQuestion Examples.generationDown Examples.showFixed
              [] [] Examples.noMatch []
              (Examples.system SimpleVectorStore.new) "test" 3)
    as [response sys'].
  destruct W as (Hs & _ & _ & Ha & Hsent & _); [reflexivity|].
  simpl. rewrite Hs, Ha, Hsent. repeat split.
Defined.

(** C8 on [twoResults]. *)
Lemma createContext_blocks_witness :
  Examples.twoResults <> [] /\
  RAGSystem.createContext Examples.twoResults
  = ("=== Document Section 1 ===" ++ LF ++ "gamma" ++ LF ++ LF
       ++ "=== Document Section 2 ===" ++ LF ++ "alpha" ++ LF).
Proof.
  split; [discriminate|].
  rewrite (@createContext_blocks float Examples.twoResults
             ["gamma"; "alpha"]); reflexivity.
Defined.

(** C9 on a document of five chunks whose second embedding request is
    rejected. *)
Lemma addDocument_embedding_failure_inserts_nothing_witness :
  exists response sys',
    RAGSystem.addDocument
      Examples.embeddingFlaky
      (Examples.oneFile Examples.loopingText)
      (Examples.oneFile Examples.loopingText)
      (Examples.oneFile Examples.loopingText)
      "t" (fun _ => "t") 30 Examples.smallChunks "notes.txt" "txt"
    = Some (response, sys') /\
    RAGSystem.addSucceeded response = false /\
    RAGSystem.vectorStore sys' = RAGSystem.vectorStore Examples.smallChunks.
Proof.
  destruct (@addDocument_embedding_failure_inserts_nothing
              float Examples.embeddingFlaky
              (Examples.oneFile Examples.loopingText)
              (Examples.oneFile Examples.loopingText)
              (Examples.oneFile Examples.loopingText)
              "t" (fun _ => "t") 30 Examples.smallChunks "notes.txt" "txt"
              Examples.processed 1 "aaaa.aaaaa" Examples.unavailable)
    as (response & sys' & Hrun & Hfail & Hstore & _).
  - vm_compute. reflexivity.
  - vm_compute. reflexivity.
  - vm_compute. reflexivity.
  - exists response, sys'. auto.
Defined.

End RetrievalClaims.

(* ================================================================= *)
(** * Part V: further properties of the code *)
(* ================================================================= *)

(** ** vectorStore.js *)

Module StoreProperties.
Import JS JSFacts SimpleVectorStore Spec VectorStoreFacts.
Local Open Scope string_scope.

(** Multiplication of binary64 numbers commutes. *)
Lemma SF64mul_comm (x y : SpecFloat.spec_float) :
  FloatAxioms.SF64mul x y = FloatAxioms.SF64mul y x.
Proof.
  unfold FloatAxioms.SF64mul, SpecFloat.SFmul.
  destruct x as [sx|sx| |sx mx ex], y as [sy|sy| |sy my ey];
    try reflexivity; try (rewrite xorb_comm; reflexivity).
  rewrite xorb_comm, Pos.mul_comm, Z.add_comm. reflexivity.
Qed.

Lemma float_mul_comm (x y : float) : PrimFloat.mul x y = PrimFloat.mul y x.
Proof.
  rewrite <- (FloatAxioms.SF2Prim_Prim2SF (PrimFloat.mul x y)).
  rewrite <- (FloatAxioms.SF2Prim_Prim2SF (PrimFloat.mul y x)).
  rewrite !FloatAxioms.mul_spec, SF64mul_comm. reflexivity.
Qed.

Lemma pure_mapi_from_app A B (f : nat -> A -> B) (l l' : list A) :
  forall i,
    pure_mapi_from f i (l ++ l')
    = (pure_mapi_from f i l
         ++ pure_mapi_from f (i + List.length l) l')%list.
Proof.
  induction l as [|x t IH]; intros i; simpl.
  - rewrite Nat.add_0_r. reflexivity.
  - rewrite IH. do 3 f_equal. lia.
Qed.

Lemma pure_mapi_from_ext A B (f g : nat -> A -> B) (l : list A) :
  forall i,
    (forall k x, nth_error l k = Some x -> f (i + k)%nat x = g (i + k)%nat x) ->
    pure_mapi_from f i l = pure_mapi_from g i l.
Proof.
  induction l as [|x t IH]; intros i Hfg; simpl; [reflexivity|].
  f_equal.
  - specialize (Hfg 0%nat x eq_refl). rewrite Nat.add_0_r in Hfg. exact Hfg.
  - apply IH. intros k y Hk. specialize (Hfg (S k) y Hk).
    rewrite Nat.add_succ_r in Hfg. exact Hfg.
Qed.

Lemma StronglySorted_app_cross A (R : A -> A -> Prop) (l1 l2 : list A) :
  StronglySorted R (l1 ++ l2) ->
  forall a b, In a l1 -> In b l2 -> R a b.
Proof.
  induction l1 as [|x t IH]; intros Hs a b Ha Hb; [destruct Ha|].
  simpl in Hs. inversion Hs as [|? ? Hs' Hall]; subst.
  destruct Ha as [->|Ha].
  - rewrite Forall_forall in Hall. apply Hall, in_or_app. right; exact Hb.
  - eapply IH; eassumption.
Qed.

Section WithNumbers.
Context {num : Type} `{Number num}.

Lemma stamped_metadata (meta : Object) (id : Z) (now : string) :
  let m := set "timestamp" (VString now) (set "id" (VNumber id) meta) in
  get "id" m = Some (VNumber id) /\
  get "timestamp" m = Some (VString now) /\
  forall key, key <> "id" -> key <> "timestamp" -> get key m = get key meta.
Proof.
  simpl. split; [|split].
  - rewrite get_set_other by discriminate. apply get_set_same.
  - apply get_set_same.
  - intros key Hid Hts. rewrite !get_set_other by assumption. reflexivity.
Qed.

Lemma addDocument_appends
      (s : t num) (txt : string) (emb : list num) (meta : Object)
      (now : string) :
  documents (addDocument s txt emb meta now) = (documents s ++ [txt])%list /\
  embeddings (addDocument s txt emb meta now)
  = (embeddings s ++ [emb])%list /\
  metadata (addDocument s txt emb meta now)
  = (metadata s
       ++ [set "timestamp" (VString now)
               (set "id" (VNumber (getDocumentCount s)) meta)])%list.
Proof.
  unfold addDocument, getDocumentCount, push; simpl.
  repeat split. do 5 f_equal. rewrite length_app; simpl; lia.
Qed.

(** [addDocument] appends to the three arrays; the new metadata object
    carries the count before the call as [id] (whatever [id] the caller
    passed) and the time as [timestamp], and keeps every other property
    of the caller's object. *)
Theorem addDocument_assigns_next_id
        (s : t num) (txt : string) (emb : list num) (meta : Object)
        (now : string) :
  let s' := addDocument s txt emb meta now in
  getDocumentCount s' = (getDocumentCount s + 1)%Z /\
  documents s' = (documents s ++ [txt])%list /\
  embeddings s' = (embeddings s ++ [emb])%list /\
  exists m,
    metadata s' = (metadata s ++ [m])%list /\
    get "id" m = Some (VNumber (getDocumentCount s)) /\
    get "timestamp" m = Some (VString now) /\
    forall key, key <> "id" -> key <> "timestamp" ->
                get key m = get key meta.
Proof.
  destruct (addDocument_appends s txt emb meta now) as (Hd & He & Hm).
  cbv zeta. split.
  - unfold getDocumentCount. rewrite Hd, length_app. simpl. lia.
  - split; [exact Hd|]. split; [exact He|].
    eexists. split; [exact Hm|]. apply stamped_metadata.
Qed.

(** What [getAllDocuments] lists after an insertion into a consistent
    store: the entries listed before, unchanged, and then the inserted
    text under the next index with its own embedding and metadata. *)
Theorem getAllDocuments_after_addDocument
        (s : t num) (txt : string) (emb : list num) (meta : Object)
        (now : string) :
  consistent s ->
  exists m,
    getAllDocuments (addDocument s txt emb meta now)
    = (getAllDocuments s
         ++ [mkEntry (List.length (documents s)) txt (Some emb) (Some m)])%list
    /\ get "id" m = Some (VNumber (getDocumentCount s)).
Proof.
  intros (He & Hm & _).
  destruct (addDocument_appends s txt emb meta now) as (Hd & Hemb & Hmeta).
  eexists. split; [|apply stamped_metadata].
  unfold getAllDocuments, pure_mapi. rewrite Hd, Hemb, Hmeta.
  rewrite pure_mapi_from_app. f_equal.
  - apply pure_mapi_from_ext. intros k x Hk. simpl.
    assert (Hlt : (k < List.length (documents s))%nat)
      by (apply nth_error_Some; congruence).
    rewrite !nth_error_app1 by lia. reflexivity.
  - simpl. rewrite !nth_error_app2 by lia.
    rewrite He, Hm, Nat.sub_diag. reflexivity.
Qed.

(** [clear] forgets everything: operations after a [clear] reach the
    store they reach from a fresh one, whatever came before. *)
Theorem clear_forgets_history (before after : list (Operation num)) :
  run (before ++ OpClear :: after) = run after.
Proof.
  unfold run. rewrite fold_left_app. reflexivity.
Qed.

(** After [clear] the count is zero, nothing is listed, every search
    returns the empty array (also for a query of any length), and the
    next insertion gets [id] 0 again. *)
Theorem clear_resets_store
        (s : t num) (q : list num) (topK : Z) (txt : string)
        (emb : list num) (meta : Object) (now : string) :
  getDocumentCount (clear s) = 0%Z /\
  getAllDocuments (clear s) = [] /\
  search (clear s) q topK = Normal [] /\
  exists m,
    metadata (addDocument (clear s) txt emb meta now) = [m] /\
    get "id" m = Some (VNumber 0).
Proof.
  repeat split.
  destruct (addDocument_appends (clear s) txt emb meta now)
    as (_ & _ & Hmeta).
  eexists. split; [exact Hmeta | apply stamped_metadata].
Qed.

(** *** Ranking *)

Lemma sorted_prefix_is_best (l : list (SearchResult num)) (n : nat) :
  nonIncreasing l ->
  forall r e, In r (firstn n l) -> In e l -> ~ In e (firstn n l) ->
              notBelow r e.
Proof.
  intros Hs r e Hr He Hne.
  rewrite <- (firstn_skipn n l) in Hs, He.
  apply in_app_or in He. destruct He as [He|He]; [contradiction|].
  eapply StronglySorted_app_cross; eassumption.
Qed.

(** On a consistent store, whatever [topK] is, the results of [search]
    are the best entries: no entry that was left out has a greater
    similarity than one that was returned. *)
Theorem search_returns_the_best
        (s : t num) (queryEmbedding : list num) (topK : Z) :
  consistent s ->
  Forall (fun emb => List.length emb = List.length queryEmbedding)
         (embeddings s) ->
  comparable (map (cosine queryEmbedding) (embeddings s)) = true ->
  exists results,
    search s queryEmbedding topK = Normal results /\
    forall r e,
      In r results -> In e (scoredEntries s queryEmbedding) ->
      ~ In e results ->
      lt (similarity r) (similarity e) = false.
Proof.
  intros (Hle & _ & _) Hdim Hcmp. eexists.
  split; [apply search_matching; assumption|].
  intros r e Hr He Hne. unfold array_slice0 in *.
  eapply sorted_prefix_is_best; try eassumption.
  - apply sort_nonIncreasing
      with (sims := map (cosine queryEmbedding) (embeddings s)); auto.
    intros x. apply scoredEntries_similarity.
  - apply (sort_In bySimilarity e (scoredEntries s queryEmbedding)).
    exact He.
Qed.

Lemma pure_mapi_from_index_bound A (f : nat -> A -> SearchResult num) l :
  (forall i x, index (f i x) = i) ->
  forall i, StronglySorted (fun a b => (index a < index b)%nat)
                           (pure_mapi_from f i l) /\
            Forall (fun a => (i <= index a)%nat) (pure_mapi_from f i l).
Proof.
  intros Hf. induction l as [|x t IH]; intros i; simpl.
  - split; constructor.
  - destruct (IH (S i)) as [Hs Hall]. split.
    + constructor; [exact Hs|].
      rewrite Forall_forall in *. intros a Ha. rewrite Hf.
      specialize (Hall a Ha). lia.
    + constructor; [rewrite Hf; lia|].
      rewrite Forall_forall in *. intros a Ha.
      specialize (Hall a Ha). lia.
Qed.

Lemma sort_insert_stable (sims : list num) x l :
  comparable sims = true ->
  (forall r, In r (x :: l) -> In (similarity r) sims) ->
  Forall (fun z => (index x < index z)%nat) l ->
  StronglySorted (fun a b => notBelow a b /\ tiesInInsertionOrder a b) l ->
  StronglySorted (fun a b => notBelow a b /\ tiesInInsertionOrder a b)
                 (sort_insert bySimilarity x l).
Proof.
  intros Hc Hin Hidx Hs.
  induction Hs as [|y t Hs IH Hall]; simpl.
  - repeat constructor.
  - assert (Hx : In (similarity x) sims) by (apply Hin; left; auto).
    assert (Hy : In (similarity y) sims) by (apply Hin; right; left; auto).
    destruct (comparable_spec _ Hc _ _ _ Hx Hy Hy) as (H1 & H2 & _).
    unfold bySimilarity at 1. rewrite H1.
    inversion Hidx as [|? ? Hxy Hidx']; subst.
    destruct (lt (similarity x) (similarity y)) eqn:Exy.
    + constructor.
      * apply IH; [|exact Hidx'].
        intros r [->|Hr]; apply Hin; simpl; auto.
      * rewrite Forall_forall in *. intros z Hz.
        apply (Permutation_in _ (sort_insert_perm bySimilarity x t)) in Hz.
        destruct Hz as [<-|Hz]; [|auto].
        split; [apply H2; reflexivity|].
        intros Htie. unfold notBelow in *. congruence.
    + constructor; [constructor; assumption|].
      constructor.
      * split; [exact Exy | intros _; exact Hxy].
      * rewrite Forall_forall in *. intros z Hz.
        assert (Hz' : In (similarity z) sims)
          by (apply Hin; right; right; auto).
        destruct (comparable_spec _ Hc _ _ _ Hx Hy Hz') as (_ & _ & H3).
        split.
        -- apply H3; [exact Exy | apply Hall; assumption].
        -- intros _. apply Hidx'. exact Hz.
Qed.

Lemma sort_stable (sims : list num) l :
  comparable sims = true ->
  (forall r, In r l -> In (similarity r) sims) ->
  StronglySorted (fun a b => (index a < index b)%nat) l ->
  StronglySorted (fun a b => notBelow a b /\ tiesInInsertionOrder a b)
                 (sort bySimilarity l).
Proof.
  intros Hc Hin Hidx. induction Hidx as [|x t Hidx IH Hall]; simpl.
  - constructor.
  - apply sort_insert_stable with (sims := sims); auto.
    + intros r [->|Hr]; [apply Hin; left; auto|].
      apply Hin; right. apply (sort_In bySimilarity r t); assumption.
    + rewrite Forall_forall in *. intros z Hz. apply Hall.
      apply (sort_In bySimilarity z t); assumption.
    + apply IH. intros r Hr; apply Hin; right; assumption.
Qed.

(** On a consistent store the ranking is stable: of two results with
    the same similarity, the one that was inserted into the store first
    is ranked first. *)
Theorem search_keeps_insertion_order_among_ties
        (s : t num) (queryEmbedding : list num) (topK : Z) :
  consistent s ->
  Forall (fun emb => List.length emb = List.length queryEmbedding)
         (embeddings s) ->
  comparable (map (cosine queryEmbedding) (embeddings s)) = true ->
  exists results,
    search s queryEmbedding topK = Normal results /\
    StronglySorted tiesInInsertionOrder results.
Proof.
  intros (Hle & _ & _) Hdim Hcmp. eexists.
  split; [apply search_matching; assumption|].
  apply firstn_StronglySorted.
  assert (Hboth :
            StronglySorted
              (fun a b => notBelow a b /\ tiesInInsertionOrder a b)
              (sort bySimilarity (scoredEntries s queryEmbedding))).
  { apply sort_stable
      with (sims := map (cosine queryEmbedding) (embeddings s)); auto.
    - intros r. apply scoredEntries_similarity.
    - apply pure_mapi_from_index_bound. reflexivity. }
  clear - Hboth. induction Hboth as [|y t Hs IH Hall]; constructor; auto.
  rewrite Forall_forall in *. intros z Hz. apply Hall; assumption.
Qed.

(** An inserted text is found again: after [addDocument] on a consistent
    store, a search that asks for at least as many results as the store
    holds returns it under the next index, with the similarity of its
    own embedding to the query. *)
Theorem search_finds_inserted_document
        (s : t num) (txt : string) (emb : list num) (meta : Object)
        (now : string) (queryEmbedding : list num) (topK : Z) :
  consistent s ->
  Forall (fun e => List.length e = List.length queryEmbedding)
         (embeddings s) ->
  List.length emb = List.length queryEmbedding ->
  (getDocumentCount s + 1 <= topK)%Z ->
  exists results r,
    search (addDocument s txt emb meta now) queryEmbedding topK
    = Normal results /\
    In r results /\
    index r = List.length (documents s) /\
    document r = Some txt /\
    similarity r = cosine queryEmbedding emb.
Proof.
  intros (He & _ & _) Hdim Hemb Hk.
  destruct (addDocument_appends s txt emb meta now) as (Hd & Hes & _).
  set (s' := addDocument s txt emb meta now) in *.
  assert (Hdim' : Forall (fun e => List.length e = List.length queryEmbedding)
                         (embeddings s')).
  { rewrite Hes. apply Forall_app. split; [exact Hdim|].
    constructor; [exact Hemb | constructor]. }
  exists (sort bySimilarity (scoredEntries s' queryEmbedding)).
  exists (mkResult (List.length (documents s)) (cosine queryEmbedding emb)
                   (Some txt)
                   (nth_error (metadata s') (List.length (documents s)))).
  split.
  - rewrite (search_matching s' queryEmbedding topK);
      [|rewrite Hes, Hd, !length_app, He; reflexivity | exact Hdim'].
    rewrite array_slice0_all; [reflexivity|].
    rewrite sort_length, scoredEntries_length, Hes, length_app.
    unfold getDocumentCount in Hk. simpl. lia.
  - split; [|auto].
    apply (sort_In bySimilarity _ (scoredEntries s' queryEmbedding)).
    unfold scoredEntries, pure_mapi. rewrite Hes, pure_mapi_from_app.
    apply in_or_app. right. cbn [pure_mapi_from]. left.
    rewrite Nat.add_0_l, He, Hd. rewrite nth_error_app2 by lia.
    rewrite Nat.sub_diag. reflexivity.
Qed.

(** *** Symmetry *)

Lemma accumulate_swap (mul_comm : forall x y : num, mul x y = mul y x)
      (a : list num) :
  forall (b : list num) d x y,
    accumulate b a d y x
    = (fst (fst (accumulate a b d x y)), snd (accumulate a b d x y),
       snd (fst (accumulate a b d x y))).
Proof.
  induction a as [|u a IH]; intros [|v b] d x y; simpl; try reflexivity.
  rewrite IH, (mul_comm v u). reflexivity.
Qed.

(** In an arithmetic whose multiplication commutes, as it does in
    binary64, the similarity does not depend on the order of the two
    vectors (nor does the dimension error). *)
Theorem cosineSimilarity_symmetric (a b : list num) :
  (forall x y : num, mul x y = mul y x) ->
  cosineSimilarity a b = cosineSimilarity b a.
Proof.
  intros mul_comm. unfold cosineSimilarity.
  rewrite (Nat.eqb_sym (List.length b) (List.length a)).
  destruct (negb (List.length a =? List.length b)%nat); [reflexivity|].
  rewrite (accumulate_swap mul_comm a b zero zero zero).
  destruct (accumulate a b zero zero zero) as [[d x] y]; simpl.
  rewrite (orb_comm (strict_eq (sqrt y) zero)), (mul_comm (sqrt y)).
  reflexivity.
Qed.

End WithNumbers.

(** On [threeChunks] with a fourth chunk. *)
Lemma getAllDocuments_after_addDocument_witness :
  exists m,
    getAllDocuments
      (addDocument Examples.threeChunks "delta" [0.5; 0.5]%float [] "t3")
    = (getAllDocuments Examples.threeChunks
         ++ [mkEntry 3 "delta" (Some [0.5; 0.5]%float) (Some m)])%list.
Proof.
  destruct (@getAllDocuments_after_addDocument float
              Examples.threeChunks "delta" [0.5; 0.5]%float [] "t3"
              (consistent_run _)) as (m & Hm & _).
  exists m. exact Hm.
Defined.

(** On [threeChunks] with a fourth chunk, asking for ten results. *)
Lemma search_finds_inserted_document_witness :
  exists results r,
    search (addDocument Examples.threeChunks "delta" [0.5; 0.5]%float [] "t3")
           Examples.query 10
    = Normal results /\
    In r results /\ index r = 3%nat /\ document r = Some "delta".
Proof.
  destruct (@search_finds_inserted_document float _
              Examples.threeChunks "delta" [0.5; 0.5]%float [] "t3"
              Examples.query 10%Z)
    as (results & r & Hs & Hin & Hi & Hd & _).
  - apply consistent_run.
  - repeat constructor.
  - reflexivity.
  - vm_compute. discriminate.
  - exists results, r. auto.
Defined.

(** On [threeChunks] and [query], keeping one result. *)
Lemma search_returns_the_best_witness :
  exists results,
    search Examples.threeChunks Examples.query 1 = Normal results /\
    forall r e,
      In r results ->
      In e (scoredEntries Examples.threeChunks Examples.query) ->
      ~ In e results ->
      lt (similarity r) (similarity e) = false.
Proof.
  apply (@search_returns_the_best float _
           Examples.threeChunks Examples.query 1%Z).
  - apply consistent_run.
  - repeat constructor.
  - vm_compute. reflexivity.
Defined.

(** On [Examples.tied], two of whose entries are as similar to the
    query as each other. *)
Lemma search_keeps_insertion_order_among_ties_witness :
  exists results,
    search Examples.tied Examples.query 3 = Normal results /\
    map index results = [0; 2; 1]%nat /\
    StronglySorted tiesInInsertionOrder results.
Proof.
  destruct (@search_keeps_insertion_order_among_ties float _
              Examples.tied Examples.query 3%Z)
    as (results & Hs & Hties).
  - apply consistent_run.
  - repeat constructor.
  - vm_compute. reflexivity.
  - exists results. split; [exact Hs|]. split; [|exact Hties].
    vm_compute in Hs. inversion Hs. reflexivity.
Defined.

(** In binary64, on two vectors of three coordinates. *)
Lemma cosineSimilarity_symmetric_witness :
  cosineSimilarity [1; 2; 3]%float [0.5; 4; 7]%float
  = cosineSimilarity [0.5; 4; 7]%float [1; 2; 3]%float.
Proof.
  apply (@cosineSimilarity_symmetric float _). exact float_mul_comm.
Defined.

End StoreProperties.

(** ** documents.js *)

Module ChunkingProperties.
Import JS DocumentProcessor Spec Examples ChunkingFacts.
Local Open Scope string_scope.
Local Open Scope Z_scope.

(** *** Strings *)

Lemma append_assoc (a b c : string) : (a ++ b) ++ c = a ++ b ++ c.
Proof. induction a as [|x a IH]; simpl; [reflexivity | rewrite IH; auto]. Qed.

Lemma append_empty_r (a : string) : a ++ "" = a.
Proof. induction a as [|x a IH]; simpl; [reflexivity | rewrite IH; auto]. Qed.

Lemma partOf_refl s : partOf s s.
Proof. exists "", "". simpl. rewrite append_empty_r. reflexivity. Qed.

Lemma partOf_trans a b c : partOf a b -> partOf b c -> partOf a c.
Proof.
  intros (x & y & ->) (u & v & ->).
  exists (u ++ x), (y ++ v). rewrite !append_assoc. reflexivity.
Qed.

Lemma partOf_cons c piece s : partOf piece s -> partOf piece (String c s).
Proof. intros (x & y & ->). exists (String c x), y. reflexivity. Qed.

Lemma substring_prefix s :
  forall m, exists rest, s = substring 0 m s ++ rest.
Proof.
  induction s as [|c s IH]; intros [|m]; simpl.
  - exists "". reflexivity.
  - exists "". reflexivity.
  - exists (String c s). reflexivity.
  - destruct (IH m) as [rest Hrest]. exists rest.
    rewrite <- Hrest. reflexivity.
Qed.

Lemma substring_partOf s : forall n m, partOf (substring n m s) s.
Proof.
  induction s as [|c s IH]; intros n m.
  - destruct n, m; apply partOf_refl.
  - destruct n as [|n].
    + destruct (substring_prefix (String c s) m) as [rest Hrest].
      exists "", rest. exact Hrest.
    + simpl. apply partOf_cons, IH.
Qed.

Lemma trimStart_partOf s : partOf (trimStart s) s.
Proof.
  induction s as [|c s IH]; simpl; [apply partOf_refl|].
  destruct (isWhiteSpace c); [apply partOf_cons, IH | apply partOf_refl].
Qed.

Lemma trimEnd_prefix s : exists z, s = trimEnd s ++ z.
Proof.
  induction s as [|c s [z Hz]]; simpl; [exists ""; reflexivity|].
  destruct (isWhiteSpace c && isEmpty (trimEnd s)).
  - exists (String c s). reflexivity.
  - exists z. simpl. rewrite <- Hz. reflexivity.
Qed.

Lemma trim_partOf s : partOf (trim s) s.
Proof.
  unfold trim. eapply partOf_trans; [|apply trimStart_partOf].
  destruct (trimEnd_prefix (trimStart s)) as [z Hz].
  exists "", z. simpl. exact Hz.
Qed.

Lemma prefix_append p s : prefix p (p ++ s) = true.
Proof.
  induction p as [|c p IH]; simpl; [destruct s; reflexivity|].
  destruct (ascii_dec c c); [exact IH | congruence].
Qed.

Lemma includes_startsWith s p : startsWith p s = true -> includes s p = true.
Proof. intros Hp. destruct s; cbn [includes]; rewrite Hp; reflexivity. Qed.

Lemma partOf_includes piece s : partOf piece s -> includes s piece = true.
Proof.
  intros (x & y & ->). induction x as [|c x IH]; simpl.
  - apply includes_startsWith, prefix_append.
  - rewrite IH. apply orb_true_r.
Qed.

Lemma trimEnd_length s :
  (String.length (trimEnd s) <= String.length s)%nat.
Proof.
  induction s as [|c s IH]; simpl; [lia|].
  destruct (isWhiteSpace c && isEmpty (trimEnd s)); simpl; lia.
Qed.

Lemma trimStart_length s :
  (String.length (trimStart s) <= String.length s)%nat.
Proof.
  induction s as [|c s IH]; simpl; [lia|].
  destruct (isWhiteSpace c); simpl; lia.
Qed.

Lemma trim_length s : len (trim s) <= len s.
Proof.
  unfold len, trim.
  pose proof (trimEnd_length (trimStart s)).
  pose proof (trimStart_length s). lia.
Qed.

Lemma substring_length s :
  forall n m, (String.length (substring n m s) <= m)%nat.
Proof.
  induction s as [|c s IH]; intros [|n] [|m]; simpl; try lia.
  - specialize (IH 0%nat m). lia.
  - apply IH.
  - apply IH.
Qed.

Lemma slice_length text a b :
  0 <= a -> 0 <= b -> len (slice text a b) <= Z.max (b - a) 0.
Proof.
  intros Ha Hb. unfold slice, len.
  set (n := Z.of_nat (String.length text)).
  set (from := relative_index n a). set (to := relative_index n b).
  pose proof (substring_length text (Z.to_nat from) (Z.to_nat (to - from)))
    as Hs.
  assert (Hfrom : from = Z.min a n).
  { unfold from, relative_index. destruct (Z.ltb_spec a 0); lia. }
  assert (Hto : to = Z.min b n).
  { unfold to, relative_index. destruct (Z.ltb_spec b 0); lia. }
  lia.
Qed.

Lemma lastIndexOf_scan_le s ch limit :
  forall i acc, acc <= limit ->
                lastIndexOf_scan s i ch limit acc <= limit.
Proof.
  induction s as [|c s IH]; intros i acc Hacc; simpl; [exact Hacc|].
  destruct (Z.leb_spec i limit); [|exact Hacc].
  apply IH. destruct (Ascii.eqb c ch); lia.
Qed.

Lemma lastIndexOf_le s ch position :
  lastIndexOf s ch position <= Z.max position 0.
Proof. unfold lastIndexOf. apply lastIndexOf_scan_le. lia. Qed.

(** *** Windows *)

Lemma chunkEnd_upper dp text start :
  0 <= start -> 0 <= chunkSize dp ->
  chunkEnd dp text start <= start + chunkSize dp + 1.
Proof.
  intros Hstart Hsize. unfold chunkEnd.
  pose proof (lastIndexOf_le text "." (start + chunkSize dp)).
  pose proof (lastIndexOf_le text "?" (start + chunkSize dp)).
  pose proof (lastIndexOf_le text "!" (start + chunkSize dp)).
  pose proof (lastIndexOf_le text " " (start + chunkSize dp)).
  destruct (start + chunkSize dp <? len text); [|lia].
  repeat case_ltb; lia.
Qed.

Lemma chunkEnd_after_start dp text start :
  1 <= chunkSize dp -> start < chunkEnd dp text start.
Proof.
  intros Hsize. unfold chunkEnd.
  destruct (start + chunkSize dp <? len text); [|lia].
  repeat case_ltb; lia.
Qed.

Lemma chunkLoop_windows dp text :
  forall fuel chunks start,
    chunkLoop fuel dp text chunks start
    = option_map (fun ws => (chunks ++ chunksOf text ws)%list)
                 (windows fuel dp text start).
Proof.
  induction fuel as [|fuel IH]; intros chunks start; simpl; [reflexivity|].
  destruct (start <? len text); simpl.
  - rewrite IH.
    destruct (windows fuel dp text
                      (chunkEnd dp text start - chunkOverlap dp));
      simpl; [|reflexivity].
    unfold chunksOf at 2. simpl.
    destruct (0 <? len (trim (slice text start (chunkEnd dp text start))));
      unfold push; [rewrite <- app_assoc|]; reflexivity.
  - rewrite app_nil_r. reflexivity.
Qed.

Lemma windows_cover dp text :
  1 <= chunkSize dp ->
  2 * chunkOverlap dp <= chunkSize dp ->
  forall fuel start,
    0 <= start ->
    (Z.to_nat (len text - start) < fuel)%nat ->
    exists ws,
      windows fuel dp text start = Some ws /\
      Forall (fun w => 0 <= fst w < snd w /\
                       snd w <= fst w + chunkSize dp + 1) ws /\
      (0 <= chunkOverlap dp ->
       forall i, start <= i < len text ->
                 exists w, In w ws /\ fst w <= i < snd w).
Proof.
  intros Hsize Hhalf.
  induction fuel as [|fuel IH]; intros start Hstart Hfuel; [lia|].
  simpl. destruct (Z.ltb_spec start (len text)) as [Hlt|Hge].
  - pose proof (chunkEnd_advances dp text start Hsize Hhalf) as Hadv.
    pose proof (@chunkEnd_upper dp text start Hstart) as Hup.
    pose proof (@chunkEnd_after_start dp text start Hsize) as Hafter.
    destruct (IH (chunkEnd dp text start - chunkOverlap dp))
      as (ws & Hws & Hall & Hcov); [lia | lia |].
    rewrite Hws. eexists. split; [reflexivity|]. split.
    + constructor; [simpl; lia | exact Hall].
    + intros Hov i Hi.
      destruct (Z.lt_ge_cases i (chunkEnd dp text start)) as [Hin|Hout].
      * exists (start, chunkEnd dp text start). simpl. split; [auto | lia].
      * destruct (Hcov Hov i) as (w & Hw & Hiw); [lia|].
        exists w. split; [right; exact Hw | exact Hiw].
  - exists []. split; [reflexivity|]. split; [constructor|].
    intros _ i Hi. lia.
Qed.

Lemma chunksOf_In text ws chunk :
  In chunk (chunksOf text ws) ->
  exists w, In w ws /\ chunk = trim (slice text (fst w) (snd w)).
Proof.
  unfold chunksOf. intros Hin. apply filter_In in Hin.
  destruct Hin as [Hin _]. apply in_map_iff in Hin.
  destruct Hin as (w & <- & Hw). eauto.
Qed.

(** [chunkText] in terms of its windows. *)
Lemma chunkText_windows fuel dp text chunks :
  chunkText fuel dp text = Some chunks ->
  chunks = [trim text] \/
  exists ws, windows fuel dp text 0 = Some ws /\ chunks = chunksOf text ws.
Proof.
  unfold chunkText. destruct (len text <=? chunkSize dp).
  - intros E; inversion E; auto.
  - rewrite chunkLoop_windows.
    destruct (windows fuel dp text 0); simpl; [|discriminate].
    intros E; inversion E; eauto.
Qed.

(** *** The text normalisation *)

Lemma singleSpaced_weaken s :
  singleSpaced true s = true -> singleSpaced false s = true.
Proof.
  destruct s as [|c s]; simpl; [auto|].
  destruct (isWhiteSpace c); [|auto].
  rewrite andb_false_r. discriminate.
Qed.

Lemma collapseWhiteSpace_singleSpaced s :
  forall inRun, singleSpaced inRun (collapseWhiteSpace inRun s) = true.
Proof.
  induction s as [|c s IH]; intros inRun; simpl; [reflexivity|].
  destruct (isWhiteSpace c) eqn:Ec.
  - destruct inRun; [apply IH|].
    simpl. apply IH.
  - simpl. rewrite Ec. apply IH.
Qed.

Lemma singleSpaced_no_empty_lines s :
  forall afterSpace,
    singleSpaced afterSpace s = true -> removeEmptyLines None s = s.
Proof.
  induction s as [|c s IH]; intros afterSpace; simpl; [reflexivity|].
  destruct (isWhiteSpace c) eqn:Ec.
  - intros Hs. apply andb_prop in Hs. destruct Hs as [Hs Ht].
    apply andb_prop in Hs. destruct Hs as [Hc _].
    apply Ascii.eqb_eq in Hc. subst c. simpl.
    rewrite (IH true Ht). reflexivity.
  - intros Ht.
    destruct (Ascii.eqb c (ascii_of_nat 10)) eqn:El.
    + apply Ascii.eqb_eq in El. subst c. discriminate.
    + rewrite (IH false Ht). reflexivity.
Qed.

Lemma singleSpaced_collapse s :
  forall afterSpace,
    singleSpaced afterSpace s = true -> collapseWhiteSpace afterSpace s = s.
Proof.
  induction s as [|c s IH]; intros afterSpace; simpl; [reflexivity|].
  destruct (isWhiteSpace c) eqn:Ec.
  - intros Hs. apply andb_prop in Hs. destruct Hs as [Hs Ht].
    apply andb_prop in Hs. destruct Hs as [Hc Ha].
    apply Ascii.eqb_eq in Hc. subst c.
    destruct afterSpace; [discriminate|].
    rewrite (IH true Ht). reflexivity.
  - intros Ht. rewrite (IH false Ht). reflexivity.
Qed.

Lemma trimStart_singleSpaced s :
  forall afterSpace,
    singleSpaced afterSpace s = true ->
    singleSpaced false (trimStart s) = true.
Proof.
  induction s as [|c s IH]; intros afterSpace; simpl; [reflexivity|].
  destruct (isWhiteSpace c) eqn:Ec.
  - intros Hs. apply andb_prop in Hs. destruct Hs as [_ Ht].
    apply (IH true Ht).
  - intros Ht. simpl. rewrite Ec. exact Ht.
Qed.

Lemma trimEnd_singleSpaced s :
  forall afterSpace,
    singleSpaced afterSpace s = true ->
    singleSpaced afterSpace (trimEnd s) = true.
Proof.
  induction s as [|c s IH]; intros afterSpace; simpl; [reflexivity|].
  destruct (isWhiteSpace c) eqn:Ec; simpl.
  - intros Hs. apply andb_prop in Hs. destruct Hs as [Hs Ht].
    destruct (isEmpty (trimEnd s)); simpl; [reflexivity|].
    rewrite Ec, Hs. simpl. apply (IH true Ht).
  - intros Ht. rewrite Ec. apply (IH false Ht).
Qed.

Lemma cleanText_is_trimmed_collapse text :
  cleanText text = trim (collapseWhiteSpace false text).
Proof.
  unfold cleanText.
  rewrite (singleSpaced_no_empty_lines _ false
             (collapseWhiteSpace_singleSpaced text false)).
  reflexivity.
Qed.

Lemma cleanText_singleSpaced text :
  singleSpaced false (cleanText text) = true.
Proof.
  rewrite cleanText_is_trimmed_collapse. unfold trim.
  apply trimEnd_singleSpaced.
  apply trimStart_singleSpaced with (afterSpace := false).
  apply collapseWhiteSpace_singleSpaced.
Qed.

Lemma singleSpaced_no_line_feed s :
  forall afterSpace,
    singleSpaced afterSpace s = true -> includes s LF = false.
Proof.
  induction s as [|c s IH]; intros afterSpace; [reflexivity|].
  cbn [singleSpaced includes]. unfold startsWith, LF. cbn [prefix].
  destruct (isWhiteSpace c) eqn:Ec.
  - intros Hs. apply andb_prop in Hs. destruct Hs as [Hs Ht].
    apply andb_prop in Hs. destruct Hs as [Hc _].
    apply Ascii.eqb_eq in Hc. subst c.
    destruct (ascii_dec (ascii_of_nat 10) " ") as [E|_]; [discriminate E|].
    apply (IH true Ht).
  - intros Ht.
    destruct (ascii_dec (ascii_of_nat 10) c) as [E|_].
    + subst c. discriminate.
    + apply (IH false Ht).
Qed.

(** [cleanText] returns its text with every run of white space replaced
    by one space and the ends trimmed.  The result holds no line feed,
    tab or other white space than single spaces, so the second
    replacement of the function, the one that removes empty lines, never
    finds anything to replace. *)
Theorem cleanText_normal_form (text : string) :
  cleanText text = trim (collapseWhiteSpace false text) /\
  singleSpaced false (cleanText text) = true /\
  includes (cleanText text) LF = false /\
  trim (cleanText text) = cleanText text.
Proof.
  split; [apply cleanText_is_trimmed_collapse|].
  split; [apply cleanText_singleSpaced|].
  split.
  - apply singleSpaced_no_line_feed with (afterSpace := false).
    apply cleanText_singleSpaced.
  - unfold cleanText. apply trim_idempotent.
Qed.

(** Cleaning a text that is already clean changes nothing. *)
Theorem cleanText_idempotent (text : string) :
  cleanText (cleanText text) = cleanText text.
Proof.
  rewrite (cleanText_is_trimmed_collapse (cleanText text)).
  rewrite (singleSpaced_collapse _ false (cleanText_singleSpaced text)).
  unfold cleanText. apply trim_idempotent.
Qed.

(** When the chunk size is positive and the overlap at most half of it,
    no chunk is longer than [chunkSize + 1] characters: a window is cut
    at [chunkSize] characters, or just behind a sentence terminator that
    may sit at the very edge of the window. *)
Theorem chunkText_chunk_lengths
        (fuel : nat) (dp : DocumentProcessor.t) (text : string)
        (chunks : list string) :
  1 <= chunkSize dp ->
  2 * chunkOverlap dp <= chunkSize dp ->
  chunkText fuel dp text = Some chunks ->
  Forall (fun chunk => len chunk <= chunkSize dp + 1) chunks.
Proof.
  intros Hsize Hhalf Hrun.
  assert (Hshort : len text <= chunkSize dp ->
                   Forall (fun chunk => len chunk <= chunkSize dp + 1)
                          [trim text]).
  { intros Hle. constructor; [|constructor].
    pose proof (trim_length text). lia. }
  unfold chunkText in Hrun.
  destruct (Z.leb_spec (len text) (chunkSize dp)) as [Hle|Hgt].
  { inversion Hrun; subst. auto. }
  destruct (@windows_cover dp text Hsize Hhalf (S (String.length text)) 0)
    as (ws & Hws & Hall & _); [lia | unfold len; lia |].
  assert (Hrun' : chunkLoop (S (String.length text)) dp text [] 0
                  = Some (chunksOf text ws)).
  { rewrite chunkLoop_windows, Hws. reflexivity. }
  destruct (Nat.le_ge_cases fuel (S (String.length text))) as [Hf|Hf].
  - rewrite (@chunkLoop_more_fuel dp text fuel (S (String.length text))
               [] 0 chunks Hrun Hf) in Hrun'.
    inversion Hrun'; subst chunks.
    apply Forall_forall. intros chunk Hin.
    apply chunksOf_In in Hin. destruct Hin as (w & Hw & ->).
    rewrite Forall_forall in Hall. specialize (Hall w Hw).
    pose proof (trim_length (slice text (fst w) (snd w))).
    pose proof (@slice_length text (fst w) (snd w)). lia.
  - rewrite (@chunkLoop_more_fuel dp text (S (String.length text)) fuel
               [] 0 (chunksOf text ws) Hrun' Hf) in Hrun.
    inversion Hrun; subst chunks.
    apply Forall_forall. intros chunk Hin.
    apply chunksOf_In in Hin. destruct Hin as (w & Hw & ->).
    rewrite Forall_forall in Hall. specialize (Hall w Hw).
    pose proof (trim_length (slice text (fst w) (snd w))).
    pose proof (@slice_length text (fst w) (snd w)). lia.
Qed.

(** Every chunk is a contiguous part of the text it was cut from:
    chunking invents no character and joins no two distant parts. *)
Theorem chunkText_chunks_are_parts
        (fuel : nat) (dp : DocumentProcessor.t) (text : string)
        (chunks : list string) :
  chunkText fuel dp text = Some chunks ->
  Forall (fun chunk => partOf chunk text /\ includes text chunk = true)
         chunks.
Proof.
  intros Hrun.
  assert (Hpart : forall chunk, partOf chunk text ->
                                partOf chunk text /\
                                includes text chunk = true).
  { intros chunk Hc. split; [exact Hc | apply partOf_includes, Hc]. }
  apply chunkText_windows in Hrun.
  destruct Hrun as [-> | (ws & _ & ->)].
  - constructor; [|constructor]. apply Hpart, trim_partOf.
  - apply Forall_forall. intros chunk Hin.
    apply chunksOf_In in Hin. destruct Hin as (w & _ & ->).
    apply Hpart. eapply partOf_trans; [apply trim_partOf|].
    unfold slice. apply substring_partOf.
Qed.


Lemma diverging_turn dp text fuel chunks :
  0 < len text ->
  chunkSize dp < len text ->
  lastIndexOf text "." (chunkSize dp) = chunkOverlap dp - 1 ->
  lastIndexOf text "?" (chunkSize dp) <= chunkOverlap dp - 1 ->
  lastIndexOf text "!" (chunkSize dp) <= chunkOverlap dp - 1 ->
  chunkSize dp < 2 * (chunkOverlap dp - 1) ->
  exists chunks',
    chunkLoop (S fuel) dp text chunks 0 = chunkLoop fuel dp text chunks' 0.
Proof.
  intros Hlen Hlong Hstop Hq Hx Hhalf. simpl.
  destruct (Z.ltb_spec 0 (len text)); [|lia].
  assert (Hend : chunkEnd dp text 0 = chunkOverlap dp).
  { unfold chunkEnd. rewrite Z.add_0_l.
    destruct (Z.ltb_spec (chunkSize dp) (len text)); [|lia].
    rewrite Hstop.
    replace (Z.max (Z.max (chunkOverlap dp - 1)
                          (lastIndexOf text "?" (chunkSize dp)))
                   (lastIndexOf text "!" (chunkSize dp)))
      with (chunkOverlap dp - 1) by lia.
    case_ltb; lia. }
  rewrite Hend, Z.sub_diag. eauto.
Qed.

(** The loop of [chunkText] never ends on a text longer than the chunk
    size whose last sentence terminator at or before index [chunkSize]
    is a full stop at index [overlap - 1], beyond half of the chunk
    size: the first window is cut behind that full stop and the cursor
    is back at 0. *)
Theorem chunkText_diverges_on_late_full_stop
        (dp : DocumentProcessor.t) (text : string) :
  0 <= chunkSize dp < len text ->
  lastIndexOf text "." (chunkSize dp) = chunkOverlap dp - 1 ->
  lastIndexOf text "?" (chunkSize dp) <= chunkOverlap dp - 1 ->
  lastIndexOf text "!" (chunkSize dp) <= chunkOverlap dp - 1 ->
  chunkSize dp < 2 * (chunkOverlap dp - 1) ->
  forall fuel, chunkText fuel dp text = None.
Proof.
  intros [Hsize Hlong] Hstop Hq Hx Hhalf fuel. unfold chunkText.
  destruct (Z.leb_spec (len text) (chunkSize dp)); [lia|].
  generalize (@nil string).
  induction fuel as [|fuel IH]; intros chunks; [reflexivity|].
  destruct (@diverging_turn dp text fuel chunks) as [chunks' ->];
    try assumption; [lia | apply IH].
Qed.

(** On [stopAtEdge], whose first chunk has eleven characters. *)
Lemma chunkText_chunk_lengths_witness :
  exists chunks,
    chunkText 30 halfOverlap stopAtEdge = Some chunks /\
    hd "" chunks = "aaaaaaaaaa." /\
    Forall (fun chunk => len chunk <= chunkSize halfOverlap + 1) chunks.
Proof.
  eexists. split; [vm_compute; reflexivity|]. split; [reflexivity|].
  apply (@chunkText_chunk_lengths 30 halfOverlap stopAtEdge);
    [simpl; lia | simpl; lia | vm_compute; reflexivity].
Defined.

(** On [loopingText] with [chunkSize = 10] and [chunkOverlap = 5]. *)
Lemma chunkText_chunks_are_parts_witness :
  exists chunks,
    chunkText 30 halfOverlap loopingText = Some chunks /\
    Forall (fun chunk => partOf chunk loopingText /\
                         includes loopingText chunk = true) chunks.
Proof.
  eexists. split; [vm_compute; reflexivity|].
  apply (@chunkText_chunks_are_parts 30 halfOverlap loopingText).
  vm_compute. reflexivity.
Defined.


(** On [loopingText] with [chunkSize = 10] and [chunkOverlap = 8]. *)
Lemma chunkText_diverges_on_late_full_stop_witness :
  lastIndexOf loopingText "." (chunkSize looping) = chunkOverlap looping - 1
  /\ chunkText 1000 looping loopingText = None.
Proof.
  split; [reflexivity|].
  apply (@chunkText_diverges_on_late_full_stop looping loopingText);
    try reflexivity; try (vm_compute; discriminate).
  split; [simpl; lia | reflexivity].
Defined.

End ChunkingProperties.

(** ** generation.js *)

Module GenerationProperties.
Import JS InferenceClient TextGenerator TextGeneratorFacts.
Local Open Scope string_scope.

Lemma array_includes_false (l : list string) (s : string) :
  array_includes l s = false -> ~ In s l.
Proof.
  unfold array_includes. induction l as [|x l IH]; simpl; [tauto|].
  intros Hx [->|Hin].
  - rewrite String.eqb_refl in Hx. discriminate.
  - apply orb_false_elim in Hx. destruct Hx as [_ Hl]. exact (IH Hl Hin).
Qed.

Lemma NoDup_push (l : list string) (x : string) :
  NoDup l -> ~ In x l -> NoDup (push l x).
Proof.
  intros Hl Hx. unfold push.
  apply (Permutation_NoDup (Permutation_cons_append l x)).
  constructor; assumption.
Qed.

(** A loop that only pushes what the array does not hold yet keeps the
    array free of duplicates. *)
Lemma guarded_pushes_NoDup A (item : A -> string) (accept : A -> bool)
      (ms : list A) :
  forall names,
    NoDup names ->
    NoDup (fold_left
             (fun names m =>
                if accept m && negb (array_includes names (item m))
                then push names (item m) else names)
             ms names).
Proof.
  induction ms as [|m ms IH]; intros names Hn; simpl; [exact Hn|].
  apply IH. destruct (accept m); simpl; [|exact Hn].
  destruct (array_includes names (item m)) eqn:E; simpl; [exact Hn|].
  apply NoDup_push; [exact Hn | apply array_includes_false, E].
Qed.

Lemma guarded_pushes_accepted A (item : A -> string) (accept : A -> bool)
      (P : string -> Prop) (ms : list A) :
  (forall m, accept m = true -> P (item m)) ->
  forall names,
    Forall P names ->
    Forall P (fold_left
                (fun names m =>
                   if accept m && negb (array_includes names (item m))
                   then push names (item m) else names)
                ms names).
Proof.
  intros Hacc. induction ms as [|m ms IH]; intros names Hn; simpl;
    [exact Hn|].
  apply IH. destruct (accept m) eqn:Em; simpl; [|exact Hn].
  destruct (array_includes names (item m)); simpl; [exact Hn|].
  unfold push. apply Forall_app. split; [exact Hn|].
  constructor; [apply Hacc, Em | constructor].
Qed.

Lemma fold_patterns A (P : list string -> Prop)
      (step : list string -> A -> list string) (patterns : list A) :
  (forall names pattern, P names -> P (step names pattern)) ->
  forall names, P names -> P (fold_left step patterns names).
Proof.
  intros Hstep. induction patterns as [|pattern rest IH]; intros names Hn;
    simpl; auto.
Qed.

Lemma fold_left_pointwise A B (f g : A -> B -> A) (l : list B) :
  (forall a b, f a b = g a b) ->
  forall a, fold_left f l a = fold_left g l a.
Proof.
  intros Hfg. induction l as [|b l IH]; intros a; simpl; [reflexivity|].
  rewrite Hfg. apply IH.
Qed.

Section WithRegExps.
Variable namePatterns datePatterns : list (RegExp string).
Variable numberPattern : RegExp (string * string * string).
Variable locationPatterns : list (RegExp (string * option string)).

(** Whatever the regular expressions match, the lists of names, dates
    and locations extracted from a context hold no entry twice, no name
    is empty, and at most ten numbers are kept. *)
Theorem extraction_lists_have_no_duplicates (context : string) :
  NoDup (extractNames namePatterns context) /\
  ~ In "" (extractNames namePatterns context) /\
  NoDup (extractDates datePatterns context) /\
  NoDup (extractLocations locationPatterns context) /\
  (List.length (extractNumbers numberPattern context) <= 10)%nat.
Proof.
  split; [|split; [|split; [|split]]].
  - unfold extractNames.
    apply fold_patterns with (P := @NoDup string); [|constructor].
    intros names pattern Hn.
    apply (@guarded_pushes_NoDup string trim
             (fun m => negb (isEmpty (trim m))) (pattern context) names Hn).
  - assert (Hall : Forall (fun name => name <> "")
                          (extractNames namePatterns context)).
    { unfold extractNames.
      apply fold_patterns with (P := Forall (fun name => name <> ""));
        [|constructor].
      intros names pattern Hn.
      apply (@guarded_pushes_accepted string trim
               (fun m => negb (isEmpty (trim m))) (fun name => name <> "")
               (pattern context)); [|exact Hn].
      intros m Hm E. rewrite E in Hm. discriminate. }
    rewrite Forall_forall in Hall. intros Hin. apply (Hall "" Hin).
    reflexivity.
  - unfold extractDates.
    apply fold_patterns with (P := @NoDup string); [|constructor].
    intros dates pattern Hn.
    apply (@guarded_pushes_NoDup string (fun m => m) (fun _ => true)
             (pattern context) dates Hn).
  - unfold extractLocations.
    apply fold_patterns with (P := @NoDup string); [|constructor].
    intros locations pattern Hn.
    pose proof (@guarded_pushes_NoDup (string * option string)
                  (fun m => trim (match snd m with
                                  | Some g => if isEmpty g then fst m else g
                                  | None => fst m
                                  end))
                  (fun m => negb (isEmpty (match snd m with
                                           | Some g =>
                                               if isEmpty g then fst m else g
                                           | None => fst m
                                           end)))
                  (pattern context) locations Hn) as Hfold.
    erewrite fold_left_pointwise; [exact Hfold|].
    intros names [m0 m1]. reflexivity.
  - unfold extractNumbers. apply firstn_le_length.
Qed.

Section WithService.
Context {num : Type}.
Variable hf : Service num.

Local Abbreviation generateAnswer :=
  (generateAnswer namePatterns datePatterns numberPattern locationPatterns
                  hf).
Local Abbreviation generateMultipleAnswers :=
  (generateMultipleAnswers namePatterns datePatterns numberPattern
                           locationPatterns hf).

Lemma remove_first_at_start (pattern s : string) :
  startsWith pattern s = true ->
  remove_first pattern s
  = substring (String.length pattern) (String.length s) s.
Proof. intros Hp. destruct s; cbn [remove_first]; rewrite Hp; reflexivity. Qed.

Lemma substring_skip (p s : string) (m : nat) :
  substring (String.length p) m (p ++ s) = substring 0 m s.
Proof. induction p as [|c p IH]; simpl; [reflexivity | exact IH]. Qed.

Lemma substring_whole (s : string) :
  forall m, (String.length s <= m)%nat -> substring 0 m s = s.
Proof.
  induction s as [|c s IH]; intros [|m] Hm; simpl in *; try reflexivity;
    try lia.
  rewrite IH by lia. reflexivity.
Qed.

Lemma remove_first_echo (pattern text : string) :
  remove_first pattern (pattern ++ text) = text.
Proof.
  rewrite remove_first_at_start.
  - rewrite substring_skip. apply substring_whole.
    rewrite length_append. lia.
  - unfold startsWith.
    induction pattern as [|c p IH]; simpl; [destruct text; reflexivity|].
    destruct (ascii_dec c c); [exact IH | congruence].
Qed.

Lemma generateAnswer_sent (question context : string) (sent : list Request) :
  snd (generateAnswer question context sent)
  = push sent (TextGeneration (createPrompt question context) 300).
Proof.
  unfold TextGenerator.generateAnswer.
  destruct (textGeneration hf sent (createPrompt question context) 300)
    as [text|e]; [destruct (isEmpty text)|]; reflexivity.
Qed.

(** When the service returns the prompt followed by its text, as
    text-generation models do, the answer is that text alone, trimmed and
    cleaned: the echoed prompt is removed. *)
Theorem generateAnswer_strips_echoed_prompt
        (question context text : string) (sent : list Request) :
  textGeneration hf sent (createPrompt question context) 300
  = Normal (createPrompt question context ++ text) ->
  generateAnswer question context sent
  = (cleanAnswer (trim text),
     push sent (TextGeneration (createPrompt question context) 300)).
Proof.
  intros Hgen. unfold TextGenerator.generateAnswer. rewrite Hgen.
  replace (isEmpty (createPrompt question context ++ text)) with false
    by reflexivity.
  rewrite remove_first_echo. reflexivity.
Qed.

(** [generateMultipleAnswers] returns [count] answers (none for a count
    below one) and sends [count] generation requests, all with the same
    prompt, whether the service answers or fails. *)
Theorem generateMultipleAnswers_count
        (question context : string) (count : Z) (sent : list Request) :
  List.length (fst (generateMultipleAnswers question context count sent))
  = Z.to_nat count /\
  snd (generateMultipleAnswers question context count sent)
  = (sent ++ repeat (TextGeneration (createPrompt question context) 300)
                    (Z.to_nat count))%list.
Proof.
  unfold TextGenerator.generateMultipleAnswers.
  generalize (Z.to_nat count) as turns. intros turns. revert sent.
  induction turns as [|turns IH]; intros sent; simpl.
  - rewrite app_nil_r. auto.
  - pose proof (generateAnswer_sent question context sent) as Hsent.
    destruct (generateAnswer question context sent) as [answer sent1].
    simpl in Hsent. subst sent1.
    specialize (IH (push sent
                      (TextGeneration (createPrompt question context) 300))).
    destruct (generateAnswers namePatterns datePatterns numberPattern
                locationPatterns hf turns question context
                (push sent
                   (TextGeneration (createPrompt question context) 300)))
      as [answers sent2].
    simpl in *. destruct IH as [Hlen ->]. split; [lia|].
    unfold push. rewrite <- app_assoc. reflexivity.
Qed.

End WithService.
End WithRegExps.

(** With regular expressions that find "Ada Lovelace" and "Alan Turing"
    more than once. *)
Lemma extraction_lists_have_no_duplicates_example :
  extractNames Examples.repeatedNames "any context"
  = ["Ada Lovelace"; "Alan Turing"].
Proof. reflexivity. Qed.

(** On a service that echoes the prompt. *)
Lemma generateAnswer_strips_echoed_prompt_witness :
  fst (generateAnswer [] [] Examples.noMatch [] Examples.echoing
                      "what is six times seven" "some context" [])
  = "forty-two.".
Proof.
  rewrite (@generateAnswer_strips_echoed_prompt
             [] [] Examples.noMatch [] float Examples.echoing
             "what is six times seven" "some context"
             " Answer: forty-two. " []); reflexivity.
Defined.

End GenerationProperties.

(** ** embedding.js and retrieval.js *)

Module RetrievalProperties.
Import JS JSFacts InferenceClient RetrievalFacts VectorStoreFacts.
Local Open Scope string_scope.

Lemma nth_seq_all A (d : A) (l : list A) :
  forall k, map (fun i => nth (i - k) l d) (seq k (List.length l)) = l.
Proof.
  induction l as [|x l IH]; intros k; simpl; [reflexivity|].
  rewrite Nat.sub_diag. f_equal.
  rewrite <- (IH (S k)) at 2. apply map_ext_in.
  intros i Hi. apply in_seq in Hi.
  replace (i - k)%nat with (S (i - S k)) by lia. reflexivity.
Qed.

Section WithNumbers.
Context {num : Type} `{Number num}.

(** With a stored embedding of another length than the query's, [search]
    throws. *)
Lemma search_throws_on_mismatch (s : SimpleVectorStore.t num) q topK emb :
  In emb (SimpleVectorStore.embeddings s) ->
  List.length emb <> List.length q ->
  SimpleVectorStore.search s q topK
  = Throw SimpleVectorStore.DimensionMismatch.
Proof.
  intros Hin Hlen. unfold SimpleVectorStore.search, mapi.
  destruct (SimpleVectorStore.embeddings s) as [|e0 es] eqn:Ee;
    [destruct Hin|].
  cbn [List.length Nat.eqb].
  rewrite (@mapi_from_throw _ _ (SimpleVectorStore.score s q)
             SimpleVectorStore.DimensionMismatch).
  - reflexivity.
  - intros i x e. apply score_throws_only.
  - exists emb; split; [assumption|].
    intros j. unfold SimpleVectorStore.score.
    rewrite cosineSimilarity_mismatch by congruence. reflexivity.
Qed.

Section WithWorld.
Variable hf : Service num.
Variable toFixed : num -> Z -> string.
Variable readFile pdfText htmlText : string -> completion string.
Variable processedAt : string.
Variable now : nat -> string.
Variable namePatterns datePatterns : list (TextGenerator.RegExp string).
Variable numberPattern : TextGenerator.RegExp (string * string * string).
Variable locationPatterns :
  list (TextGenerator.RegExp (string * option string)).

Local Abbreviation askQuestion :=
  (RAGSystem.askQuestion hf toFixed namePatterns datePatterns numberPattern
                         locationPatterns).
Local Abbreviation addDocument :=
  (RAGSystem.addDocument hf readFile pdfText htmlText processedAt now).
Local Abbreviation insertChunks := (RAGSystem.insertChunks now).

(** *** The embedding requests of a document *)

Lemma generateEmbeddings_resolved texts :
  forall sent,
    (forall i text,
        nth_error texts i = Some text ->
        exists e,
          featureExtraction hf
            (sent ++ map FeatureExtraction (firstn i texts))%list text
          = Normal e) ->
    exists embeddings,
      EmbeddingService.generateEmbeddings hf texts sent
      = (Normal embeddings, (sent ++ map FeatureExtraction texts)%list) /\
      List.length embeddings = List.length texts /\
      forall i text,
        nth_error texts i = Some text ->
        featureExtraction hf
          (sent ++ map FeatureExtraction (firstn i texts))%list text
        = Normal (nth i embeddings []).
Proof.
  induction texts as [|text rest IH]; intros sent Hall.
  - exists []. simpl. rewrite app_nil_r. repeat split.
    intros [|i] t; discriminate.
  - destruct (Hall 0%nat text eq_refl) as [e He].
    simpl in He. rewrite app_nil_r in He.
    destruct (IH (push sent (FeatureExtraction text))) as (es & Hrun & Hlen & Hpos).
    { intros i t Hi. destruct (Hall (S i) t Hi) as [e' He'].
      exists e'. unfold push. rewrite <- app_assoc. exact He'. }
    exists (e :: es). simpl. unfold EmbeddingService.generateEmbedding.
    rewrite Hrun, He. simpl. split; [|split].
    + unfold push. rewrite <- app_assoc. reflexivity.
    + lia.
    + intros [|i] t Hi; simpl in *.
      * inversion Hi; subst t. rewrite app_nil_r. exact He.
      * specialize (Hpos i t Hi). unfold push in Hpos.
        rewrite <- app_assoc in Hpos. exact Hpos.
Qed.

(** When every embedding request of [generateEmbeddings] is answered,
    it returns one embedding per text, in the order of the texts: the
    embedding at position [i] is the answer to the request for text [i].
    One request per text has been sent. *)
Theorem generateEmbeddings_keeps_positions
        (texts : list string) (sent : list Request) :
  (forall i text,
      nth_error texts i = Some text ->
      exists e,
        featureExtraction hf
          (sent ++ map FeatureExtraction (firstn i texts))%list text
        = Normal e) ->
  exists embeddings,
    EmbeddingService.generateEmbeddings hf texts sent
    = (Normal embeddings, (sent ++ map FeatureExtraction texts)%list) /\
    List.length embeddings = List.length texts /\
    forall i text,
      nth_error texts i = Some text ->
      featureExtraction hf
        (sent ++ map FeatureExtraction (firstn i texts))%list text
      = Normal (nth i embeddings []).
Proof. apply generateEmbeddings_resolved. Qed.

(** *** Ingest *)

Lemma insertChunks_appends filePath fileType total
      (embeddings : list (list num)) :
  forall chunks index (store : SimpleVectorStore.t num),
    SimpleVectorStore.documents
      (insertChunks filePath fileType total index chunks embeddings store)
    = (SimpleVectorStore.documents store ++ chunks)%list /\
    SimpleVectorStore.embeddings
      (insertChunks filePath fileType total index chunks embeddings store)
    = (SimpleVectorStore.embeddings store
         ++ map (fun i => nth i embeddings [])
                (seq index (List.length chunks)))%list /\
    (Spec.consistent store ->
     Spec.consistent
       (insertChunks filePath fileType total index chunks embeddings store)).
Proof.
  induction chunks as [|chunk rest IH]; intros index store; simpl.
  - rewrite !app_nil_r. auto.
  - destruct (IH (S index)
                 (SimpleVectorStore.addDocument store chunk
                    (nth index embeddings [])
                    [("sourceFile", VString filePath);
                     ("fileType", VString fileType);
                     ("chunkIndex", VNumber (Z.of_nat index));
                     ("totalChunks", VNumber (Z.of_nat total))]
                    (now (List.length (SimpleVectorStore.documents store)))))
      as (Hd & He & Hc).
    split; [|split].
    + rewrite Hd. unfold SimpleVectorStore.addDocument, push; simpl.
      rewrite <- app_assoc. reflexivity.
    + rewrite He. unfold SimpleVectorStore.addDocument, push; simpl.
      rewrite <- app_assoc. reflexivity.
    + intros Hs. apply Hc, consistent_addDocument, Hs.
Qed.

(** When the document is read and chunked and every embedding request is
    answered, [addDocument] reports [success: true] with the number of
    chunks and the new count, and the store holds the chunks behind the
    entries it held before, each chunk with the embedding that answered
    its own request; a consistent store stays consistent. *)
Theorem addDocument_indexes_every_chunk
        (fuel : nat) (sys : RAGSystem.t num) (filePath fileType : string)
        (processedDoc : DocumentProcessor.ProcessedDocument) :
  let chunks := DocumentProcessor.chunks processedDoc in
  let store := RAGSystem.vectorStore sys in
  DocumentProcessor.processDocument readFile pdfText htmlText processedAt
    fuel (RAGSystem.documentProcessor sys) filePath fileType
  = Some (Normal processedDoc) ->
  (forall i chunk,
      nth_error chunks i = Some chunk ->
      exists e,
        featureExtraction hf
          (RAGSystem.sent sys ++ map FeatureExtraction (firstn i chunks))%list
          chunk
        = Normal e) ->
  exists embeddings sys',
    addDocument fuel sys filePath fileType
    = Some (RAGSystem.AddSuccess
              (Z.of_nat (List.length chunks))
              (SimpleVectorStore.getDocumentCount store
               + Z.of_nat (List.length chunks))%Z
              (DocumentProcessor.docMetadata processedDoc),
            sys') /\
    SimpleVectorStore.documents (RAGSystem.vectorStore sys')
    = (SimpleVectorStore.documents store ++ chunks)%list /\
    SimpleVectorStore.embeddings (RAGSystem.vectorStore sys')
    = (SimpleVectorStore.embeddings store ++ embeddings)%list /\
    List.length embeddings = List.length chunks /\
    (forall i chunk,
        nth_error chunks i = Some chunk ->
        featureExtraction hf
          (RAGSystem.sent sys ++ map FeatureExtraction (firstn i chunks))%list
          chunk
        = Normal (nth i embeddings [])) /\
    (Spec.consistent store ->
     Spec.consistent (RAGSystem.vectorStore sys')).
Proof.
  intros chunks store Hdoc Hall.
  destruct (generateEmbeddings_resolved chunks (RAGSystem.sent sys) Hall)
    as (embeddings & Hrun & Hlen & Hpos).
  destruct (insertChunks_appends filePath fileType (List.length chunks)
              embeddings chunks 0 store) as (Hd & He & Hc).
  exists embeddings. eexists. unfold RAGSystem.addDocument.
  rewrite Hdoc. fold chunks. rewrite Hrun. fold store.
  split; [|split; [|split; [|split; [|split]]]]; simpl.
  - do 3 f_equal. unfold SimpleVectorStore.getDocumentCount.
    rewrite Hd, length_app. lia.
  - exact Hd.
  - etransitivity; [exact He|]. f_equal. rewrite <- Hlen.
    rewrite <- (nth_seq_all [] embeddings 0) at 2.
    apply map_ext. intros i. rewrite Nat.sub_0_r. reflexivity.
  - exact Hlen.
  - exact Hpos.
  - exact Hc.
Qed.

(** When the file cannot be read or parsed, [addDocument] reports
    [success: false] with the message of that error; nothing is sent to
    the inference service and the system is as before. *)
Theorem addDocument_extraction_failure
        (fuel : nat) (sys : RAGSystem.t num) (filePath fileType : string)
        (err : Error) :
  DocumentProcessor.extract readFile pdfText htmlText filePath fileType
  = Throw err ->
  addDocument fuel sys filePath fileType
  = Some (RAGSystem.AddFailure (message err), sys).
Proof.
  intros Hfail. unfold RAGSystem.addDocument,
                  DocumentProcessor.processDocument.
  rewrite Hfail. reflexivity.
Qed.

(** A file that holds nothing but white space is not refused: its clean
    text is empty, [chunkText] returns the one empty chunk, and
    [addDocument] has it embedded and adds it to the store. *)
Theorem addDocument_indexes_blank_file
        (fuel : nat) (sys : RAGSystem.t num) (filePath fileType raw : string)
        (e : list num) :
  DocumentProcessor.extract readFile pdfText htmlText filePath fileType
  = Normal raw ->
  DocumentProcessor.cleanText raw = "" ->
  (0 <= DocumentProcessor.chunkSize (RAGSystem.documentProcessor sys))%Z ->
  featureExtraction hf (RAGSystem.sent sys) "" = Normal e ->
  exists metadata sys',
    addDocument fuel sys filePath fileType
    = Some (RAGSystem.AddSuccess
              1 (SimpleVectorStore.getDocumentCount (RAGSystem.vectorStore sys)
                 + 1)%Z metadata,
            sys') /\
    SimpleVectorStore.documents (RAGSystem.vectorStore sys')
    = (SimpleVectorStore.documents (RAGSystem.vectorStore sys) ++ [""])%list.
Proof.
  intros Hraw Hclean Hsize Hembed.
  unfold RAGSystem.addDocument, DocumentProcessor.processDocument.
  rewrite Hraw, Hclean. unfold DocumentProcessor.chunkText.
  replace (len "") with 0%Z by reflexivity.
  destruct (Z.leb_spec 0
              (DocumentProcessor.chunkSize (RAGSystem.documentProcessor sys)));
    [|lia].
  cbn [DocumentProcessor.chunks trim trimStart trimEnd
       EmbeddingService.generateEmbeddings
       EmbeddingService.generateEmbedding].
  rewrite Hembed. cbn [bind RAGSystem.insertChunks List.length nth].
  eexists _, _. split.
  - do 3 f_equal. unfold SimpleVectorStore.getDocumentCount,
      SimpleVectorStore.addDocument, push. simpl.
    rewrite length_app. simpl. lia.
  - reflexivity.
Qed.

(** *** Queries *)

(** When the embedding request of the question is rejected, [askQuestion]
    reports [success: false] with the message of that error and a [null]
    answer; the store is not searched and no generation request is
    sent. *)
Theorem askQuestion_embedding_failure
        (sys : RAGSystem.t num) (question : string) (topK : Z)
        (err : Error) :
  SimpleVectorStore.getDocumentCount (RAGSystem.vectorStore sys) <> 0%Z ->
  featureExtraction hf (RAGSystem.sent sys) question = Throw err ->
  askQuestion sys question topK
  = (RAGSystem.AskFailure (message err),
     RAGSystem.mk (RAGSystem.vectorStore sys) (RAGSystem.documentProcessor sys)
                  (RAGSystem.sent sys ++ [FeatureExtraction question])%list).
Proof.
  intros Hcount Hembed. unfold RAGSystem.askQuestion.
  apply Z.eqb_neq in Hcount. rewrite Hcount.
  unfold EmbeddingService.generateEmbedding. rewrite Hembed. reflexivity.
Qed.

(** When the embedding of the question has another length than a stored
    embedding, [askQuestion] reports [success: false] with the message
    "Vectors must be of the same length"; no generation request is
    sent. *)
Theorem askQuestion_dimension_mismatch
        (sys : RAGSystem.t num) (question : string) (topK : Z)
        (questionEmbedding stored : list num) :
  featureExtraction hf (RAGSystem.sent sys) question
  = Normal questionEmbedding ->
  SimpleVectorStore.documents (RAGSystem.vectorStore sys) <> [] ->
  In stored (SimpleVectorStore.embeddings (RAGSystem.vectorStore sys)) ->
  List.length stored <> List.length questionEmbedding ->
  askQuestion sys question topK
  = (RAGSystem.AskFailure "Vectors must be of the same length",
     RAGSystem.mk (RAGSystem.vectorStore sys) (RAGSystem.documentProcessor sys)
                  (RAGSystem.sent sys ++ [FeatureExtraction question])%list).
Proof.
  intros Hembed Hdocs Hin Hlen. unfold RAGSystem.askQuestion.
  assert (Hcount :
            (SimpleVectorStore.getDocumentCount (RAGSystem.vectorStore sys)
             =? 0)%Z = false).
  { apply Z.eqb_neq. unfold SimpleVectorStore.getDocumentCount.
    destruct (SimpleVectorStore.documents (RAGSystem.vectorStore sys));
      [congruence | simpl; lia]. }
  rewrite Hcount. unfold EmbeddingService.generateEmbedding.
  rewrite Hembed.
  rewrite (search_throws_on_mismatch _ _ topK _ Hin Hlen). reflexivity.
Qed.

(** [askQuestion] never changes the store or the chunking settings.  It
    sends nothing, or the embedding request of the question alone, or
    that request followed by one generation request; and it reports
    [success: true] only in the last case. *)
Theorem askQuestion_request_discipline
        (sys : RAGSystem.t num) (question : string) (topK : Z) :
  let response := fst (askQuestion sys question topK) in
  let sys' := snd (askQuestion sys question topK) in
  RAGSystem.vectorStore sys' = RAGSystem.vectorStore sys /\
  RAGSystem.documentProcessor sys' = RAGSystem.documentProcessor sys /\
  (RAGSystem.sent sys' = RAGSystem.sent sys \/
   RAGSystem.sent sys'
   = (RAGSystem.sent sys ++ [FeatureExtraction question])%list \/
   exists prompt,
     RAGSystem.sent sys'
     = (RAGSystem.sent sys
          ++ [FeatureExtraction question; TextGeneration prompt 300])%list) /\
  (RAGSystem.success response = true ->
   exists prompt,
     RAGSystem.sent sys'
     = (RAGSystem.sent sys
          ++ [FeatureExtraction question; TextGeneration prompt 300])%list).
Proof.
  cbv zeta. unfold RAGSystem.askQuestion.
  destruct (SimpleVectorStore.getDocumentCount (RAGSystem.vectorStore sys)
            =? 0)%Z.
  { simpl. repeat split; auto. discriminate. }
  unfold EmbeddingService.generateEmbedding.
  destruct (featureExtraction hf (RAGSystem.sent sys) question)
    as [questionEmbedding|e].
  2:{ simpl. repeat split; auto. discriminate. }
  destruct (SimpleVectorStore.search (RAGSystem.vectorStore sys)
              questionEmbedding topK) as [searchResults|e].
  2:{ simpl. repeat split; auto. discriminate. }
  destruct (List.length searchResults =? 0)%nat.
  { simpl. repeat split; auto. discriminate. }
  pose proof (@GenerationProperties.generateAnswer_sent
                namePatterns datePatterns numberPattern locationPatterns
                num hf question (RAGSystem.createContext searchResults)
                (push (RAGSystem.sent sys) (FeatureExtraction question)))
    as Hsent.
  destruct (TextGenerator.generateAnswer namePatterns datePatterns
              numberPattern locationPatterns hf question
              (RAGSystem.createContext searchResults)
              (push (RAGSystem.sent sys) (FeatureExtraction question)))
    as [answer sent2].
  simpl in Hsent. subst sent2.
  assert (Hlog :
            push (push (RAGSystem.sent sys) (FeatureExtraction question))
                 (TextGeneration
                    (TextGenerator.createPrompt question
                       (RAGSystem.createContext searchResults)) 300)
            = (RAGSystem.sent sys
                 ++ [FeatureExtraction question;
                     TextGeneration
                       (TextGenerator.createPrompt question
                          (RAGSystem.createContext searchResults)) 300])%list).
  { unfold push. rewrite <- app_assoc. reflexivity. }
  destruct (mapi (fun _ : nat => RAGSystem.relevantDocument toFixed)
                 searchResults) as [docs|e];
    simpl; rewrite Hlog; repeat split; eauto.
Qed.

Lemma search_length_bound (s : SimpleVectorStore.t num) q topK results :
  SimpleVectorStore.search s q topK = Normal results ->
  (0 <= topK)%Z -> (Z.of_nat (List.length results) <= topK)%Z.
Proof.
  unfold SimpleVectorStore.search.
  destruct (List.length (SimpleVectorStore.embeddings s) =? 0)%nat.
  { intros E; inversion E; subst. simpl. lia. }
  destruct (mapi (SimpleVectorStore.score s q)
                 (SimpleVectorStore.embeddings s)) as [scored|e]; simpl;
    [|discriminate].
  destruct (forEach SimpleVectorStore.logResult
              (array_slice0
                 (sort SimpleVectorStore.bySimilarity scored) topK))
    as [u|e]; simpl; [|discriminate].
  intros E Hk; inversion E; subst.
  rewrite array_slice0_length by exact Hk. lia.
Qed.

(** What a [success: true] response of [askQuestion] holds: the question
    was embedded, the search returned at least one result, [context] is
    assembled from these results, and [relevantDocuments] lists one
    preview of at most 103 characters per result, hence between one and
    [topK] of them for a [topK] that is not negative. *)
Theorem askQuestion_success_shape
        (sys : RAGSystem.t num) (question : string) (topK : Z)
        (answer context : string)
        (relevantDocuments : list RAGSystem.RelevantDocument) :
  fst (askQuestion sys question topK)
  = RAGSystem.AskSuccess answer context relevantDocuments ->
  exists questionEmbedding searchResults,
    featureExtraction hf (RAGSystem.sent sys) question
    = Normal questionEmbedding /\
    SimpleVectorStore.search (RAGSystem.vectorStore sys) questionEmbedding
                             topK
    = Normal searchResults /\
    searchResults <> [] /\
    context = RAGSystem.createContext searchResults /\
    List.length relevantDocuments = List.length searchResults /\
    Forall (fun d => (String.length (RAGSystem.preview d) <= 103)%nat)
           relevantDocuments /\
    ((0 <= topK)%Z ->
     (1 <= Z.of_nat (List.length relevantDocuments) <= topK)%Z).
Proof.
  unfold RAGSystem.askQuestion.
  destruct (SimpleVectorStore.getDocumentCount (RAGSystem.vectorStore sys)
            =? 0)%Z; [discriminate|].
  unfold EmbeddingService.generateEmbedding.
  destruct (featureExtraction hf (RAGSystem.sent sys) question)
    as [questionEmbedding|e]; [|discriminate].
  destruct (SimpleVectorStore.search (RAGSystem.vectorStore sys)
              questionEmbedding topK) as [searchResults|e] eqn:Hsearch;
    [|discriminate].
  destruct (List.length searchResults =? 0)%nat eqn:Hlen; [discriminate|].
  destruct (TextGenerator.generateAnswer namePatterns datePatterns
              numberPattern locationPatterns hf question
              (RAGSystem.createContext searchResults)
              (push (RAGSystem.sent sys) (FeatureExtraction question)))
    as [generated sent2].
  destruct (mapi (fun _ : nat => RAGSystem.relevantDocument toFixed)
                 searchResults) as [docs|e] eqn:Hdocs; [|discriminate].
  simpl. intros E; inversion E; subst; clear E.
  exists questionEmbedding, searchResults.
  assert (Hcount : List.length relevantDocuments = List.length searchResults)
    by (eapply mapi_from_length; exact Hdocs).
  apply Nat.eqb_neq in Hlen.
  repeat split; auto.
  - intros ->. apply Hlen. reflexivity.
  - apply Forall_forall. intros d Hd.
    eapply mapi_from_In in Hd; [|exact Hdocs].
    destruct Hd as (k & r & _ & Hr).
    unfold RAGSystem.relevantDocument in Hr.
    destruct (SimpleVectorStore.document r) as [doc|]; [|discriminate].
    inversion Hr; subst d; simpl.
    rewrite TextGeneratorFacts.length_append. unfold substring0.
    pose proof (ChunkingProperties.substring_length doc 0 100).
    simpl. lia.
  - lia.
  - rewrite Hcount. eapply search_length_bound; eassumption.
Qed.

End WithWorld.
End WithNumbers.

(** On two texts and a service that answers every embedding request. *)
Lemma generateEmbeddings_keeps_positions_witness :
  exists embeddings,
    EmbeddingService.generateEmbeddings Examples.generationDown
      ["one"; "two"] []
    = (Normal embeddings,
       [FeatureExtraction "one"; FeatureExtraction "two"]) /\
    List.length embeddings = 2%nat.
Proof.
  destruct (@generateEmbeddings_keeps_positions float
              Examples.generationDown ["one"; "two"] [])
    as (embeddings & Hrun & Hlen & _).
  - intros i text _. exists Examples.query. reflexivity.
  - exists embeddings. split; [exact Hrun | exact Hlen].
Defined.

(** On the document of five chunks, with every request answered. *)
Lemma addDocument_indexes_every_chunk_witness :
  exists response sys',
    RAGSystem.addDocument
      Examples.generationDown
      (Examples.oneFile Examples.loopingText)
      (Examples.oneFile Examples.loopingText)
      (Examples.oneFile Examples.loopingText)
      "t" (fun _ => "t") 30 Examples.smallChunks "notes.txt" "txt"
    = Some (response, sys') /\
    RAGSystem.addSucceeded response = true /\
    SimpleVectorStore.documents (RAGSystem.vectorStore sys')
    = DocumentProcessor.chunks Examples.processed.
Proof.
  destruct (@addDocument_indexes_every_chunk
              float Examples.generationDown
              (Examples.oneFile Examples.loopingText)
              (Examples.oneFile Examples.loopingText)
              (Examples.oneFile Examples.loopingText)
              "t" (fun _ => "t") 30 Examples.smallChunks "notes.txt" "txt"
              Examples.processed)
    as (embeddings & sys' & Hrun & Hdocs & _).
  - vm_compute. reflexivity.
  - intros i chunk _. exists Examples.query. reflexivity.
  - eexists _, sys'. split; [exact Hrun|]. split; [reflexivity|].
    exact Hdocs.
Defined.

(** On a file system without the file. *)
Lemma addDocument_extraction_failure_witness :
  RAGSystem.addDocument
    Examples.generationDown Examples.noFile Examples.noFile Examples.noFile
    "t" (fun _ => "t") 30 Examples.smallChunks "notes.pdf" "PDF"
  = Some (RAGSystem.AddFailure "ENOENT: no such file or directory",
          Examples.smallChunks).
Proof.
  apply (@addDocument_extraction_failure
           float Examples.generationDown
           Examples.noFile Examples.noFile Examples.noFile
           "t" (fun _ => "t") 30 Examples.smallChunks "notes.pdf" "PDF"
           (MkError "ENOENT: no such file or directory")).
  reflexivity.
Defined.

(** On a file of three spaces and a line feed. *)
Lemma addDocument_indexes_blank_file_witness :
  exists metadata sys',
    RAGSystem.addDocument
      Examples.generationDown
      (Examples.oneFile ("   " ++ LF)) (Examples.oneFile ("   " ++ LF))
      (Examples.oneFile ("   " ++ LF))
      "t" (fun _ => "t") 0 (Examples.system Examples.threeChunks)
      "empty.txt" "txt"
    = Some (RAGSystem.AddSuccess 1 4 metadata, sys') /\
    SimpleVectorStore.documents (RAGSystem.vectorStore sys')
    = ["alpha"; "beta"; "gamma"; ""].
Proof.
  apply (@addDocument_indexes_blank_file
           float Examples.generationDown
           (Examples.oneFile ("   " ++ LF)) (Examples.oneFile ("   " ++ LF))
           (Examples.oneFile ("   " ++ LF))
           "t" (fun _ => "t") 0 (Examples.system Examples.threeChunks)
           "empty.txt" "txt" ("   " ++ LF) Examples.query);
    try reflexivity.
  simpl. lia.
Defined.

(** On [threeChunks] and a service whose generation requests fail. *)
Lemma askQuestion_success_shape_witness :
  exists searchResults,
    SimpleVectorStore.search Examples.threeChunks Examples.query 2
    = Normal searchResults /\
    List.length searchResults = 2%nat.
Proof.
  assert (Hok : exists answer context docs,
             fst (RAGSystem.askQuestion Examples.generationDown
                    Examples.showFixed [] [] Examples.noMatch []
                    (Examples.system Examples.threeChunks)
                    "what is alpha" 2)
             = RAGSystem.AskSuccess answer context docs /\
             List.length docs = 2%nat).
  { vm_compute. eexists _, _, _. split; reflexivity. }
  destruct Hok as (answer & context & docs & Hok & Hdocs).
  destruct (@askQuestion_success_shape
              float _ Examples.generationDown Examples.showFixed
              [] [] Examples.noMatch []
              (Examples.system Examples.threeChunks) "what is alpha" 2%Z
              answer context docs Hok)
    as (emb & results & Hemb & Hsearch & _ & _ & Hlen & _).
  simpl in Hemb. inversion Hemb; subst emb.
  exists results. split; [exact Hsearch | congruence].
Defined.

(** On [threeChunks] and a service that rejects every request. *)
Lemma askQuestion_embedding_failure_witness :
  fst (RAGSystem.askQuestion Examples.down Examples.showFixed
         [] [] Examples.noMatch [] (Examples.system Examples.threeChunks)
         "what is alpha" 3)
  = RAGSystem.AskFailure "Service Unavailable".
Proof.
  rewrite (@askQuestion_embedding_failure
             float _ Examples.down Examples.showFixed
             [] [] Examples.noMatch []
             (Examples.system Examples.threeChunks) "what is alpha" 3%Z
             Examples.unavailable); [reflexivity | discriminate | reflexivity].
Defined.

(** On [threeChunks] and a service whose embeddings have three
    coordinates. *)
Lemma askQuestion_dimension_mismatch_witness :
  fst (RAGSystem.askQuestion
         (mkService (fun _ _ => Normal [1; 2; 3]%float)
                    (fun _ _ _ => Throw Examples.unavailable))
         Examples.showFixed
         [] [] Examples.noMatch [] (Examples.system Examples.threeChunks)
         "what is alpha" 3)
  = RAGSystem.AskFailure "Vectors must be of the same length".
Proof.
  rewrite (@askQuestion_dimension_mismatch
             float _
             (mkService (fun _ _ => Normal [1; 2; 3]%float)
                        (fun _ _ _ => Throw Examples.unavailable))
             Examples.showFixed [] [] Examples.noMatch []
             (Examples.system Examples.threeChunks) "what is alpha" 3%Z
             [1; 2; 3]%float [1; 0]%float);
    [reflexivity | reflexivity | discriminate
     | left; reflexivity | discriminate].
Defined.

End RetrievalProperties.
